(** * ShiftRegister: a bit-banged shift-register driver for the RP2040

    A shallow embedding of [ShiftRegister.c] and [GameController.c].
    The driver talks to the outside world only through the Pico SDK calls
    [gpio_init], [gpio_set_dir], [gpio_put], [gpio_get] and [sleep_us]; the
    embedding records every such call, in program order, in a trace, and
    takes the levels returned by [gpio_get] from an environment oracle.
    The [ShiftRegister] struct lives in the machine state next to the
    trace, so that the C functions, which all work through a pointer to
    the struct, become computations in a small state monad. *)

From Stdlib Require Import ZArith List Bool Lia.
Import ListNotations.
Open Scope Z_scope.

(** ** Fixed-width unsigned integers

    [uint8_t], [uint16_t] and [uint32_t] values are integers in [Z]; the
    wrap-around of an assignment to such a variable is written out. *)

Definition uint8 (z : Z) : Z := z mod 2 ^ 8.
Definition uint32 (z : Z) : Z := z mod 2 ^ 32.

(** ** The [#define]s of ShiftRegister.c *)

Definition SHIFTREGISTER_CLOCKDELAY_US : Z := 5.
Definition SHIFTREGISTER_LATCHDELAY_US : Z := 5.
Definition SHIFTREGISTER_INPUT : Z := 0.
Definition SHIFTREGISTER_OUTPUT : Z := 1.
Definition SHIFTREGISTER_HYBRID : Z := 2.
Definition MAX_SIZEINOCTETS : Z := 4.

(** ** The [#define]s of GameController.c that the code uses *)

Definition GC8BIT_DELAY : Z := 1.

(** ** The struct *)

Record ShiftRegister : Type := mkShiftRegister {
  Type_ : Z;
  ClockGPIO : Z;
  DataInGPIO : Z;
  DataOutGPIO : Z;
  LatchGPIO : Z;
  SizeInOctets : Z;
  ClockDelayUS : Z;
  LatchDelayUS : Z;
  InputBuffer : Z;
  OutputBuffer : Z;
  InvertOutput : bool
}.

Definition with_InputBuffer (v : Z) (r : ShiftRegister) : ShiftRegister :=
  mkShiftRegister (Type_ r) (ClockGPIO r) (DataInGPIO r) (DataOutGPIO r)
    (LatchGPIO r) (SizeInOctets r) (ClockDelayUS r) (LatchDelayUS r)
    v (OutputBuffer r) (InvertOutput r).

Definition with_delays (cd ld : Z) (r : ShiftRegister) : ShiftRegister :=
  mkShiftRegister (Type_ r) (ClockGPIO r) (DataInGPIO r) (DataOutGPIO r)
    (LatchGPIO r) (SizeInOctets r) cd ld
    (InputBuffer r) (OutputBuffer r) (InvertOutput r).

(** ** The outside world: SDK calls and sampled levels *)

Inductive direction : Type := GPIO_IN | GPIO_OUT.

Inductive Event : Type :=
| gpio_init_ev (pin : Z)
| gpio_set_dir_ev (pin : Z) (dir : direction)
| gpio_put_ev (pin : Z) (level : bool)
| gpio_get_ev (pin : Z) (level : bool)
| sleep_us_ev (us : Z).

(** [trace] lists the SDK calls made so far, oldest first.  [samples n] is
    the level that the [n]-th call of [gpio_get] finds on the line, and
    [reads] counts the calls of [gpio_get] made so far. *)
Record World : Type := mkWorld {
  trace : list Event;
  samples : nat -> bool;
  reads : nat
}.

Definition emit (e : Event) (w : World) : World :=
  mkWorld (trace w ++ [e]) (samples w) (reads w).

Definition sample (pin : Z) (w : World) : bool * World :=
  let level := samples w (reads w) in
  (level, mkWorld (trace w ++ [gpio_get_ev pin level]) (samples w) (S (reads w))).

(** ** The monad of the driver's functions

    A computation runs on the struct and the world.  [None] stands for a
    run that yields no result: a loop that used up its fuel, or a
    dereferenced NULL pointer. *)

Definition Machine : Type := (ShiftRegister * World)%type.

Definition M (A : Type) : Type := Machine -> option (A * Machine).

Definition ret {A : Type} (a : A) : M A := fun s => Some (a, s).

Definition bind {A B : Type} (m : M A) (k : A -> M B) : M B :=
  fun s => match m s with
           | Some (a, s') => k a s'
           | None => None
           end.

Definition out_of_fuel {A : Type} : M A := fun _ => None.

Declare Scope driver_scope.
Delimit Scope driver_scope with driver.
Notation "x <- m ;; k" := (bind m (fun x => k))
  (at level 61, m at next level, right associativity) : driver_scope.
Notation "m ;; k" := (bind m (fun _ => k))
  (at level 61, right associativity) : driver_scope.
Open Scope driver_scope.

(** [Register->f] *)
Definition field {A : Type} (f : ShiftRegister -> A) : M A :=
  fun s => Some (f (fst s), s).

(** [Register->InputBuffer = v] *)
Definition set_InputBuffer (v : Z) : M unit :=
  fun s => Some (tt, (with_InputBuffer v (fst s), snd s)).

Definition gpio_put (pin : Z) (value : bool) : M unit :=
  fun s => Some (tt, (fst s, emit (gpio_put_ev pin value) (snd s))).

Definition gpio_get (pin : Z) : M bool :=
  fun s => let (level, w) := sample pin (snd s) in Some (level, (fst s, w)).

Definition sleep_us (us : Z) : M unit :=
  fun s => Some (tt, (fst s, emit (sleep_us_ev us) (snd s))).

(** [for(uint8_t counter=c; counter<bound; counter++) body], where the
    loop carries the local variables [l] that its body assigns.  The bound
    is an expression over the struct and is evaluated before every
    iteration; the counter is a [uint8_t] and wraps around at 256. *)
Fixpoint for_uint8 {L : Type} (fuel : nat) (bound : M Z) (body : L -> M L)
    (counter : Z) (l : L) : M L :=
  match fuel with
  | O => out_of_fuel
  | S fuel' =>
      b <- bound ;;
      if counter <? b
      then l' <- body l ;; for_uint8 fuel' bound body (uint8 (counter + 1)) l'
      else ret l
  end.

(** ** ShiftRegister.c *)

Definition ShiftRegisterPulseLatch : M unit :=
  pin <- field LatchGPIO ;; gpio_put pin true ;;
  us <- field LatchDelayUS ;; sleep_us us ;;
  pin <- field LatchGPIO ;; gpio_put pin false.

Definition ShiftRegisterPulseClock : M unit :=
  pin <- field ClockGPIO ;; gpio_put pin true ;;
  us <- field ClockDelayUS ;; sleep_us us ;;
  pin <- field ClockGPIO ;; gpio_put pin false ;;
  us <- field ClockDelayUS ;; sleep_us us.

(** [Register->SizeInOctets*8], computed in [int]. *)
Definition SizeInBits : M Z :=
  n <- field SizeInOctets ;; ret (n * 8).

(** [uint32_t WriteMask=(1 << ((Register->SizeInOctets*8)-1))]: the shift
    is done in [int] and the result converted to [uint32_t].  For a shift
    count of 31 this is the value gcc produces (bit 31 set); a count
    outside 0..31 leaves the mask zero, as the ARM shifter does. *)
Definition InitialWriteMask : M Z :=
  n <- field SizeInOctets ;; ret (uint32 (Z.shiftl 1 (n * 8 - 1))).

(** One bit of the write loops: the [if]/[else] on [InvertOutput] with the
    two [gpio_put] calls. *)
Definition PutMaskedBit (WriteMask : Z) : M unit :=
  inv <- field InvertOutput ;;
  if Bool.eqb inv false
  then pin <- field DataOutGPIO ;; buf <- field OutputBuffer ;;
       gpio_put pin (if Z.land WriteMask buf >? 0 then true else false)
  else pin <- field DataOutGPIO ;; buf <- field OutputBuffer ;;
       gpio_put pin (if Z.land WriteMask buf >? 0 then false else true).

(** One bit of the read loops: [InputBuffer<<=1] and
    [InputBuffer+=(gpio_get(DataInGPIO)?1:0)], both in [uint32_t]. *)
Definition GetBit : M unit :=
  buf <- field InputBuffer ;; set_InputBuffer (uint32 (Z.shiftl buf 1)) ;;
  buf <- field InputBuffer ;; pin <- field DataInGPIO ;;
  level <- gpio_get pin ;;
  set_InputBuffer (uint32 (buf + (if level then 1 else 0))).

Definition ShiftRegisterWrite (fuel : nat) : M unit :=
  WriteMask <- InitialWriteMask ;;
  for_uint8 fuel SizeInBits
    (fun WriteMask =>
       PutMaskedBit WriteMask ;;
       ShiftRegisterPulseClock ;;
       ret (Z.shiftr WriteMask 1))
    0 WriteMask ;;
  ShiftRegisterPulseLatch.

Definition ShiftRegisterRead (fuel : nat) : M unit :=
  set_InputBuffer 0 ;;
  pin <- field LatchGPIO ;; gpio_put pin true ;;
  for_uint8 fuel SizeInBits
    (fun _ : unit =>
       GetBit ;;
       ShiftRegisterPulseClock)
    0 tt ;;
  pin <- field LatchGPIO ;; gpio_put pin false.

Definition ShiftRegisterReadWrite (fuel : nat) : M unit :=
  WriteMask <- InitialWriteMask ;;
  for_uint8 fuel SizeInBits
    (fun WriteMask =>
       PutMaskedBit WriteMask ;;
       let WriteMask := Z.shiftr WriteMask 1 in
       ShiftRegisterPulseClock ;;
       ret WriteMask)
    0 WriteMask ;;
  pin <- field LatchGPIO ;; gpio_put pin true ;;
  set_InputBuffer 0 ;;
  WriteMask <- InitialWriteMask ;;
  for_uint8 fuel SizeInBits
    (fun _ : unit =>
       GetBit ;;
       ShiftRegisterPulseClock)
    0 tt ;;
  pin <- field LatchGPIO ;; gpio_put pin false.

Definition ShiftRegisterFill (fuel : nat) (FillValue : Z) : M unit :=
  for_uint8 fuel SizeInBits
    (fun _ : unit =>
       pin <- field DataOutGPIO ;;
       gpio_put pin (if FillValue =? 0 then false else true) ;;
       ShiftRegisterPulseClock)
    0 tt ;;
  ShiftRegisterPulseLatch.

Definition ShiftRegisterUpdate (fuel : nat) : M unit :=
  ty <- field Type_ ;;
  if ty =? SHIFTREGISTER_INPUT then ShiftRegisterRead fuel
  else if ty =? SHIFTREGISTER_OUTPUT then ShiftRegisterWrite fuel
  else if ty =? SHIFTREGISTER_HYBRID then ShiftRegisterReadWrite fuel
  else ret tt.

(** [ShiftRegisterCreate] returns a pointer: [Some None] is the NULL
    result, [Some (Some r)] a pointer to a fresh struct holding [r].
    [malloc] is taken to succeed, as the code takes it to. *)
Definition ShiftRegisterCreate (fuel : nat)
    (Type' ClockGPIO' DataInGPIO' DataOutGPIO' LatchGPIO' InitialValue
       SizeInOctets' : Z)
    (w : World) : option (option ShiftRegister * World) :=
  if SizeInOctets' >? MAX_SIZEINOCTETS then Some (None, w)
  else
    let w := emit (gpio_init_ev ClockGPIO') w in
    let w := emit (gpio_set_dir_ev ClockGPIO' GPIO_OUT) w in
    let w := if negb (DataInGPIO' =? 0)
             then emit (gpio_set_dir_ev DataInGPIO' GPIO_IN)
                    (emit (gpio_init_ev DataInGPIO') w)
             else w in
    let w := if negb (DataOutGPIO' =? 0)
             then emit (gpio_put_ev DataOutGPIO' false)
                    (emit (gpio_set_dir_ev DataOutGPIO' GPIO_OUT)
                       (emit (gpio_init_ev DataOutGPIO') w))
             else w in
    let w := emit (gpio_init_ev LatchGPIO') w in
    let w := emit (gpio_set_dir_ev LatchGPIO' GPIO_OUT) w in
    let w := emit (gpio_put_ev LatchGPIO' false) w in
    let Register :=
      {| Type_ := Type';
         ClockGPIO := ClockGPIO';
         DataInGPIO := DataInGPIO';
         DataOutGPIO := DataOutGPIO';
         LatchGPIO := LatchGPIO';
         InputBuffer := 0;
         OutputBuffer := InitialValue;
         SizeInOctets := SizeInOctets';
         ClockDelayUS := SHIFTREGISTER_CLOCKDELAY_US;
         LatchDelayUS := SHIFTREGISTER_LATCHDELAY_US;
         InvertOutput := false |} in
    match ShiftRegisterUpdate fuel (Register, w) with
    | Some (_, (Register, w)) => Some (Some Register, w)
    | None => None
    end.

(** ** GameController.c *)

Definition GC8BitPoll (fuel : nat) : M Z :=
  ShiftRegisterUpdate fuel ;;
  buf <- field InputBuffer ;; ret (uint8 buf).

(** A NULL [Controller] would be dereferenced by the two assignments:
    that run has no result. *)
Definition GC8BitInit (fuel : nat) (ClockGPIO' DataInGPIO' LatchGPIO' : Z)
    (w : World) : option (ShiftRegister * World) :=
  match ShiftRegisterCreate fuel SHIFTREGISTER_INPUT ClockGPIO' DataInGPIO'
          0 LatchGPIO' 0 1 w with
  | Some (Some Controller, w) =>
      Some (with_delays GC8BIT_DELAY GC8BIT_DELAY Controller, w)
  | Some (None, _) => None
  | None => None
  end.

(** * What the transfers put on the lines

    The event sequences below describe the protocol in the words of the
    driver's documentation; the theorems further down relate them to what
    the functions above emit. *)

Definition clock_pulse (r : ShiftRegister) : list Event :=
  [ gpio_put_ev (ClockGPIO r) true; sleep_us_ev (ClockDelayUS r);
    gpio_put_ev (ClockGPIO r) false; sleep_us_ev (ClockDelayUS r) ].

Definition latch_pulse (r : ShiftRegister) : list Event :=
  [ gpio_put_ev (LatchGPIO r) true; sleep_us_ev (LatchDelayUS r);
    gpio_put_ev (LatchGPIO r) false ].

Definition latch_raise (r : ShiftRegister) : list Event :=
  [ gpio_put_ev (LatchGPIO r) true ].

Definition latch_lower (r : ShiftRegister) : list Event :=
  [ gpio_put_ev (LatchGPIO r) false ].

(** Drive one level on data-out, then one clock pulse. *)
Definition drive_step (r : ShiftRegister) (level : bool) : list Event :=
  gpio_put_ev (DataOutGPIO r) level :: clock_pulse r.

(** Sample data-in (finding [level]), then one clock pulse. *)
Definition sample_step (r : ShiftRegister) (level : bool) : list Event :=
  gpio_get_ev (DataInGPIO r) level :: clock_pulse r.

Definition drive_steps (r : ShiftRegister) (levels : list bool) : list Event :=
  flat_map (drive_step r) levels.

Definition sample_steps (r : ShiftRegister) (levels : list bool) : list Event :=
  flat_map (sample_step r) levels.

(** The number of bit positions of a register, as a loop count. *)
Definition bit_count (r : ShiftRegister) : nat := Z.to_nat (SizeInOctets r * 8).

(** Bit [n-1], bit [n-2], ..., bit 0 of [v]. *)
Definition msb_first_bits (n : nat) (v : Z) : list bool :=
  map (fun i => Z.testbit v (Z.of_nat n - 1 - Z.of_nat i)) (seq 0 n).

(** The sum of [b_i * 2^(n-1-i)] over a list [b_0, ..., b_(n-1)]. *)
Fixpoint msb_first_value (bs : list bool) : Z :=
  match bs with
  | [] => 0
  | b :: bs' => Z.b2z b * 2 ^ Z.of_nat (length bs') + msb_first_value bs'
  end.

(** The levels that the next [n] calls of [gpio_get] will find. *)
Definition next_samples (w : World) (n : nat) : list bool :=
  map (fun i => samples w (i + reads w)%nat) (seq 0 n).

(** The world after the calls [es], [k] of which were calls of [gpio_get]. *)
Definition advance (es : list Event) (k : nat) (w : World) : World :=
  mkWorld (trace w ++ es) (samples w) (k + reads w).

(** The levels written to [pin], in the order of the calls. *)
Fixpoint levels_put (pin : Z) (t : list Event) : list bool :=
  match t with
  | [] => []
  | gpio_put_ev p level :: t' =>
      if p =? pin then level :: levels_put pin t' else levels_put pin t'
  | _ :: t' => levels_put pin t'
  end.

(** ** The values the loops compute, as the code computes them *)

(** [WriteMask] at the start of iteration [i]. *)
Definition mask_at (r : ShiftRegister) (i : nat) : Z :=
  Z.shiftr (uint32 (Z.shiftl 1 (SizeInOctets r * 8 - 1))) (Z.of_nat i).

(** The level [PutMaskedBit] drives for a given mask. *)
Definition masked_level (r : ShiftRegister) (mask : Z) : bool :=
  if Bool.eqb (InvertOutput r) false
  then (if Z.land mask (OutputBuffer r) >? 0 then true else false)
  else (if Z.land mask (OutputBuffer r) >? 0 then false else true).

Definition masked_levels (r : ShiftRegister) : list bool :=
  map (fun i => masked_level r (mask_at r i)) (seq 0 (bit_count r)).

(** One iteration of the read loops on [InputBuffer]. *)
Definition shift_in (buf : Z) (level : bool) : Z :=
  uint32 (uint32 (Z.shiftl buf 1) + (if level then 1 else 0)).

(** Shifting left by one and OR-ing a level in. *)
Definition shift_or (buf : Z) (level : bool) : Z :=
  Z.lor (Z.shiftl buf 1) (Z.b2z level).

(** The read transfer in the order the documentation gives its steps:
    raise the latch, clear the buffer, then per bit shift left, OR the
    sampled level in and pulse the clock, and lower the latch. *)
Definition Read_as_documented (fuel : nat) : M unit :=
  pin <- field LatchGPIO ;; gpio_put pin true ;;
  set_InputBuffer 0 ;;
  for_uint8 fuel SizeInBits
    (fun _ : unit =>
       buf <- field InputBuffer ;;
       pin <- field DataInGPIO ;; level <- gpio_get pin ;;
       set_InputBuffer (shift_or buf level) ;;
       ShiftRegisterPulseClock)
    0 tt ;;
  pin <- field LatchGPIO ;; gpio_put pin false.

(** [r'] differs from [r] in [InputBuffer] at most. *)
Definition same_but_InputBuffer (r r' : ShiftRegister) : Prop :=
  r' = with_InputBuffer (InputBuffer r') r.

(** The levels a write transfer is to drive: the bits of [OutputBuffer]
    from the top bit of the register's width down, each flipped when
    [InvertOutput] is set. *)
Definition output_levels (r : ShiftRegister) : list bool :=
  map (fun b => xorb b (InvertOutput r))
    (msb_first_bits (bit_count r) (OutputBuffer r)).

(** The three transfer cycles as event sequences. *)
Definition write_cycle (r : ShiftRegister) : list Event :=
  drive_steps r (output_levels r) ++ latch_pulse r.

Definition read_cycle (r : ShiftRegister) (sampled : list bool) : list Event :=
  latch_raise r ++ sample_steps r sampled ++ latch_lower r.

Definition hybrid_cycle (r : ShiftRegister) (sampled : list bool)
    : list Event :=
  drive_steps r (output_levels r) ++ latch_raise r
    ++ sample_steps r sampled ++ latch_lower r.

(** One transfer cycle of the register's mode, in a world [w]: the struct
    afterwards, the events, and the number of samples taken. *)
Definition transfer_cycle (r : ShiftRegister) (w : World)
    : ShiftRegister * list Event * nat :=
  let sampled := next_samples w (bit_count r) in
  if Type_ r =? SHIFTREGISTER_INPUT then
    (with_InputBuffer (msb_first_value sampled) r, read_cycle r sampled,
     bit_count r)
  else if Type_ r =? SHIFTREGISTER_OUTPUT then
    (r, write_cycle r, 0%nat)
  else if Type_ r =? SHIFTREGISTER_HYBRID then
    (with_InputBuffer (msb_first_value sampled) r, hybrid_cycle r sampled,
     bit_count r)
  else (r, [], 0%nat).

(** The pin set-up of [ShiftRegisterCreate], as an event sequence. *)
Definition setup_events (clock data_in data_out latch : Z) : list Event :=
  [ gpio_init_ev clock; gpio_set_dir_ev clock GPIO_OUT ]
  ++ (if data_in =? 0 then []
      else [ gpio_init_ev data_in; gpio_set_dir_ev data_in GPIO_IN ])
  ++ (if data_out =? 0 then []
      else [ gpio_init_ev data_out; gpio_set_dir_ev data_out GPIO_OUT;
             gpio_put_ev data_out false ])
  ++ [ gpio_init_ev latch; gpio_set_dir_ev latch GPIO_OUT;
       gpio_put_ev latch false ].

(** The struct [ShiftRegisterCreate] fills in, before its transfer cycle. *)
Definition fresh_register (mode clock data_in data_out latch initial width : Z)
    : ShiftRegister :=
  {| Type_ := mode;
     ClockGPIO := clock;
     DataInGPIO := data_in;
     DataOutGPIO := data_out;
     LatchGPIO := latch;
     SizeInOctets := width;
     ClockDelayUS := 5;
     LatchDelayUS := 5;
     InputBuffer := 0;
     OutputBuffer := initial;
     InvertOutput := false |}.

(** A world in which nothing has happened yet and data-in reads low. *)
Definition idle_world : World := mkWorld [] (fun _ => false) 0.

(** A world whose data-in line delivers, from now on, the listed levels
    (and low after them). *)
Definition world_feeding (levels : list bool) : World :=
  mkWorld [] (fun n => nth n levels false) 0.

(** Registers used as worked examples: one octet wide, clock on pin 2,
    data-in on pin 5, data-out on pin 3, latch on pin 4. *)
Definition example_output_register : ShiftRegister :=
  mkShiftRegister SHIFTREGISTER_OUTPUT 2 0 3 4 1 5 5 0 128 false.

Definition example_inverting_register : ShiftRegister :=
  mkShiftRegister SHIFTREGISTER_OUTPUT 2 0 3 4 1 5 5 0 128 true.

Definition example_input_register : ShiftRegister :=
  mkShiftRegister SHIFTREGISTER_INPUT 2 5 0 4 1 5 5 0 0 false.

Definition example_hybrid_register : ShiftRegister :=
  mkShiftRegister SHIFTREGISTER_HYBRID 2 5 3 4 1 5 5 0 128 false.

(** ** Further vocabulary for the properties beyond the documented ones *)

(** Two more of GameController.c's return values: what a poll yields when
    the data line stays high, and when it stays low. *)
Definition GC8BIT_NOKEY : Z := 255.
Definition GC8BIT_KEY_HELD : Z := 0.

(** [Register->OutputBuffer = v] and [Register->InvertOutput = b], the
    assignments a caller makes between transfers. *)
Definition with_OutputBuffer (v : Z) (r : ShiftRegister) : ShiftRegister :=
  mkShiftRegister (Type_ r) (ClockGPIO r) (DataInGPIO r) (DataOutGPIO r)
    (LatchGPIO r) (SizeInOctets r) (ClockDelayUS r) (LatchDelayUS r)
    (InputBuffer r) v (InvertOutput r).

Definition with_InvertOutput (b : bool) (r : ShiftRegister) : ShiftRegister :=
  mkShiftRegister (Type_ r) (ClockGPIO r) (DataInGPIO r) (DataOutGPIO r)
    (LatchGPIO r) (SizeInOctets r) (ClockDelayUS r) (LatchDelayUS r)
    (InputBuffer r) (OutputBuffer r) b.

(** The microseconds asked of [sleep_us] over a run of events. *)
Fixpoint slept (t : list Event) : Z :=
  match t with
  | [] => 0
  | sleep_us_ev us :: t' => us + slept t'
  | _ :: t' => slept t'
  end.

(** The levels a line sees over [n] pulses: high, low, high, low, ... *)
Fixpoint pulse_levels (n : nat) : list bool :=
  match n with
  | O => []
  | S n' => true :: false :: pulse_levels n'
  end.

(** Calls that set a pin up, as opposed to using it. *)
Definition reconfigures (e : Event) : bool :=
  match e with
  | gpio_init_ev _ | gpio_set_dir_ev _ _ => true
  | _ => false
  end.

(** Calls that only write a level or wait. *)
Definition puts_or_sleeps (e : Event) : bool :=
  match e with
  | gpio_put_ev _ _ | sleep_us_ev _ => true
  | _ => false
  end.

(** The pins sampled, in the order of the calls of [gpio_get]. *)
Fixpoint pins_sampled (t : list Event) : list Z :=
  match t with
  | [] => []
  | gpio_get_ev p _ :: t' => p :: pins_sampled t'
  | _ :: t' => pins_sampled t'
  end.

(** The pins handed to [gpio_init], in the order of the calls. *)
Fixpoint pins_initialised (t : list Event) : list Z :=
  match t with
  | [] => []
  | gpio_init_ev p :: t' => p :: pins_initialised t'
  | _ :: t' => pins_initialised t'
  end.

(** A caller's use of a register: a sequence of calls of the driver's
    transfer functions. *)
Inductive Transfer : Type :=
| CallWrite
| CallRead
| CallReadWrite
| CallFill (FillValue : Z)
| CallUpdate.

Definition run_transfer (fuel : nat) (t : Transfer) : M unit :=
  match t with
  | CallWrite => ShiftRegisterWrite fuel
  | CallRead => ShiftRegisterRead fuel
  | CallReadWrite => ShiftRegisterReadWrite fuel
  | CallFill FillValue => ShiftRegisterFill fuel FillValue
  | CallUpdate => ShiftRegisterUpdate fuel
  end.

Fixpoint run_transfers (fuel : nat) (ts : list Transfer) : M unit :=
  match ts with
  | [] => ret tt
  | t :: ts' => run_transfer fuel t ;; run_transfers fuel ts'
  end.

(** ** The state of a pin

    The Pico SDK is not part of the repository; its three pin calls are
    taken as the SDK documents them.  [gpio_init] makes the pin an input
    and clears its output value; [gpio_set_dir] sets the direction and
    keeps the output value; [gpio_put] sets the output value and keeps the
    direction.  A pin drives its line when its direction is [GPIO_OUT],
    and then at its output value. *)
Record PinState : Type := mkPin {
  pin_dir : direction;
  pin_out : bool
}.

Definition pin_step (p : Z) (s : PinState) (e : Event) : PinState :=
  match e with
  | gpio_init_ev q => if q =? p then mkPin GPIO_IN false else s
  | gpio_set_dir_ev q d => if q =? p then mkPin d (pin_out s) else s
  | gpio_put_ev q v => if q =? p then mkPin (pin_dir s) v else s
  | gpio_get_ev _ _ => s
  | sleep_us_ev _ => s
  end.

(** The state of pin [p] after the calls [t], when it was [s0] before. *)
Definition pin_after (p : Z) (s0 : PinState) (t : list Event) : PinState :=
  fold_left (pin_step p) t s0.

(** A pin that is an output at low level. *)
Definition driven_low : PinState := mkPin GPIO_OUT false.

(** Partial correctness: [m] keeps [P] whenever it returns. *)
Definition preserves {A : Type} (P : Machine -> Prop) (m : M A) : Prop :=
  forall s a s', P s -> m s = Some (a, s') -> P s'.

(** * Lemmas on the world and the monad *)

Lemma advance_nil (w : World) : advance [] 0 w = w.
Proof. destruct w; unfold advance; simpl. now rewrite app_nil_r. Qed.

Lemma emit_advance e es k w :
  emit e (advance es k w) = advance (es ++ [e]) k w.
Proof. unfold emit, advance; simpl. now rewrite app_assoc. Qed.

Lemma sample_advance pin es k w :
  sample pin (advance es k w) =
  (samples w (k + reads w)%nat,
   advance (es ++ [gpio_get_ev pin (samples w (k + reads w)%nat)]) (S k) w).
Proof. unfold sample, advance; simpl. now rewrite app_assoc. Qed.

Lemma flat_map_seq_S {A : Type} (f : nat -> list A) (n : nat) :
  flat_map f (seq 0 (S n)) = flat_map f (seq 0 n) ++ f n.
Proof.
  rewrite seq_S, flat_map_app. simpl. now rewrite app_nil_r.
Qed.

Lemma flat_map_of_map {A B C : Type} (f : B -> list C) (g : A -> B) l :
  flat_map f (map g l) = flat_map (fun x => f (g x)) l.
Proof. induction l as [|x l IH]; simpl; [reflexivity | now rewrite IH]. Qed.

Lemma uint8_succ (k : nat) :
  Z.of_nat k < 255 -> uint8 (Z.of_nat k + 1) = Z.of_nat (S k).
Proof.
  intros H. unfold uint8. rewrite Z.mod_small; lia.
Qed.

(** A loop whose bound is stable and at most 255 runs [Z.to_nat b] times,
    through the states [st 0], [st 1], ... *)
Lemma for_uint8_run {L : Type} (bound : M Z) (body : L -> M L) (b : Z)
    (st : nat -> Machine) (loc : nat -> L) :
  b <= 255 ->
  (forall i, (i <= Z.to_nat b)%nat -> bound (st i) = Some (b, st i)) ->
  (forall i, (i < Z.to_nat b)%nat ->
     body (loc i) (st i) = Some (loc (S i), st (S i))) ->
  forall fuel k, (k <= Z.to_nat b)%nat -> (Z.to_nat b - k < fuel)%nat ->
  for_uint8 fuel bound body (Z.of_nat k) (loc k) (st k) =
  Some (loc (Z.to_nat b), st (Z.to_nat b)).
Proof.
  intros Hb Hbound Hbody fuel.
  induction fuel as [|fuel IH]; intros k Hk Hfuel; [lia|].
  simpl. unfold bind at 1. rewrite (Hbound k Hk).
  destruct (Z.of_nat k <? b) eqn:E.
  - apply Z.ltb_lt in E.
    assert (Hlt : (k < Z.to_nat b)%nat) by lia.
    unfold bind. rewrite (Hbody k Hlt).
    rewrite uint8_succ by lia.
    apply IH; lia.
  - apply Z.ltb_ge in E.
    assert (k = Z.to_nat b) by lia. subst k. reflexivity.
Qed.

Lemma preserves_ret {A : Type} P (a : A) : preserves P (ret a).
Proof. intros s a' s' HP H. inversion H; subst; exact HP. Qed.

Lemma preserves_bind {A B : Type} P (m : M A) (k : A -> M B) :
  preserves P m -> (forall a, preserves P (k a)) -> preserves P (bind m k).
Proof.
  intros Hm Hk s b s' HP H. unfold bind in H.
  destruct (m s) as [[a s1]|] eqn:E; [|discriminate].
  exact (Hk a s1 b s' (Hm s a s1 HP E) H).
Qed.

Lemma preserves_for {L : Type} P (bound : M Z) (body : L -> M L) :
  preserves P bound -> (forall l, preserves P (body l)) ->
  forall fuel c l, preserves P (for_uint8 fuel bound body c l).
Proof.
  intros Hbound Hbody fuel.
  induction fuel as [|fuel IH]; intros c l.
  - intros s a s' _ H. discriminate H.
  - simpl. apply preserves_bind; [exact Hbound|].
    intros b. destruct (c <? b).
    + apply preserves_bind; [apply Hbody | intros l'; apply IH].
    + apply preserves_ret.
Qed.

Lemma preserves_if {A : Type} P (c : bool) (m1 m2 : M A) :
  preserves P m1 -> preserves P m2 -> preserves P (if c then m1 else m2).
Proof. destruct c; auto. Qed.

(** A property of the struct alone is kept by everything that leaves the
    struct alone. *)
Section StructProperty.
Variable Q : ShiftRegister -> Prop.

Lemma preserves_field {A : Type} (f : ShiftRegister -> A) :
  preserves (fun s => Q (fst s)) (field f).
Proof. intros s a s' HP H. inversion H; subst; exact HP. Qed.

Lemma preserves_gpio_put pin v :
  preserves (fun s => Q (fst s)) (gpio_put pin v).
Proof. intros s a s' HP H. inversion H; subst; exact HP. Qed.

Lemma preserves_sleep_us us :
  preserves (fun s => Q (fst s)) (sleep_us us).
Proof. intros s a s' HP H. inversion H; subst; exact HP. Qed.

Lemma preserves_gpio_get pin :
  preserves (fun s => Q (fst s)) (gpio_get pin).
Proof. intros s a s' HP H. inversion H; subst; exact HP. Qed.

Lemma preserves_set_InputBuffer v :
  (forall r, Q r -> Q (with_InputBuffer v r)) ->
  preserves (fun s => Q (fst s)) (set_InputBuffer v).
Proof. intros HQ s a s' HP H. inversion H; subst. apply HQ, HP. Qed.
End StructProperty.

Create HintDb frame discriminated.
#[local] Hint Resolve preserves_ret preserves_field preserves_gpio_put
  preserves_sleep_us preserves_gpio_get preserves_if : frame.

Ltac frame_steps :=
  repeat first
    [ apply preserves_bind; [| intros ?]
    | apply preserves_for; [| intros ?]
    | apply preserves_if
    | solve [auto with frame] ].

(** * What each function does, for every register whose loops terminate *)

Ltac run_prims :=
  unfold bind, field, gpio_put, sleep_us, set_InputBuffer, gpio_get, ret;
  cbn [fst snd];
  rewrite ?sample_advance, ?emit_advance; cbn [fst snd];
  rewrite ?emit_advance, <- ?app_assoc; cbn [app].

Lemma PulseClock_run r es k w :
  ShiftRegisterPulseClock (r, advance es k w) =
  Some (tt, (r, advance (es ++ clock_pulse r) k w)).
Proof. unfold ShiftRegisterPulseClock. run_prims. reflexivity. Qed.

Lemma PulseLatch_run r es k w :
  ShiftRegisterPulseLatch (r, advance es k w) =
  Some (tt, (r, advance (es ++ latch_pulse r) k w)).
Proof. unfold ShiftRegisterPulseLatch. run_prims. reflexivity. Qed.

Lemma PutMaskedBit_run mask r es k w :
  PutMaskedBit mask (r, advance es k w) =
  Some (tt, (r, advance (es ++ [gpio_put_ev (DataOutGPIO r) (masked_level r mask)])
                  k w)).
Proof.
  unfold PutMaskedBit, masked_level, bind at 1, field at 1. cbn [fst snd].
  destruct (Bool.eqb (InvertOutput r) false); run_prims; reflexivity.
Qed.

Lemma GetBit_run a r es k w :
  GetBit (with_InputBuffer a r, advance es k w) =
  Some (tt, (with_InputBuffer (shift_in a (samples w (k + reads w)%nat)) r,
             advance (es ++ [gpio_get_ev (DataInGPIO r)
                               (samples w (k + reads w)%nat)]) (S k) w)).
Proof. unfold GetBit. run_prims. reflexivity. Qed.

Lemma SizeInBits_run r w :
  SizeInBits (r, w) = Some (SizeInOctets r * 8, (r, w)).
Proof. reflexivity. Qed.

Lemma InitialWriteMask_run r w :
  InitialWriteMask (r, w) = Some (mask_at r 0, (r, w)).
Proof.
  unfold InitialWriteMask, mask_at, bind, field, ret. cbn [fst snd].
  now rewrite Z.shiftr_0_r.
Qed.

Lemma mask_at_S r i : mask_at r (S i) = Z.shiftr (mask_at r i) 1.
Proof.
  unfold mask_at. rewrite Z.shiftr_shiftr by lia.
  f_equal. lia.
Qed.

Lemma next_samples_S w i :
  next_samples w (S i) = next_samples w i ++ [samples w (i + reads w)%nat].
Proof. unfold next_samples. now rewrite seq_S, map_app. Qed.

(** The loop shared by [ShiftRegisterWrite] and [ShiftRegisterReadWrite]. *)
Lemma drive_loop_run r es k w fuel :
  SizeInOctets r * 8 <= 255 -> (bit_count r < fuel)%nat ->
  for_uint8 fuel SizeInBits
    (fun WriteMask =>
       PutMaskedBit WriteMask ;; ShiftRegisterPulseClock ;;
       ret (Z.shiftr WriteMask 1))
    0 (mask_at r 0) (r, advance es k w) =
  Some (mask_at r (bit_count r),
        (r, advance (es ++ drive_steps r (masked_levels r)) k w)).
Proof.
  intros Hb Hfuel.
  pose (st := fun i : nat =>
    (r, advance (es ++ flat_map
                   (fun j => drive_step r (masked_level r (mask_at r j)))
                   (seq 0 i)) k w)).
  assert (Hrun := for_uint8_run SizeInBits
    (fun WriteMask =>
       PutMaskedBit WriteMask ;; ShiftRegisterPulseClock ;;
       ret (Z.shiftr WriteMask 1))
    (SizeInOctets r * 8) st (mask_at r) Hb).
  fold (bit_count r) in Hrun.
  specialize (Hrun (fun i _ => SizeInBits_run r _)).
  assert (Hbody : forall i, (i < bit_count r)%nat ->
    (PutMaskedBit (mask_at r i) ;; ShiftRegisterPulseClock ;;
     ret (Z.shiftr (mask_at r i) 1)) (st i) =
    Some (mask_at r (S i), st (S i))).
  { intros i _. unfold st, bind at 1. rewrite PutMaskedBit_run.
    unfold bind at 1. rewrite PulseClock_run. unfold ret.
    rewrite mask_at_S, flat_map_seq_S. unfold drive_step.
    rewrite <- !app_assoc. reflexivity. }
  specialize (Hrun Hbody fuel 0%nat (Nat.le_0_l _)).
  rewrite Nat.sub_0_r in Hrun. specialize (Hrun Hfuel).
  unfold st in Hrun. cbn [seq flat_map Z.of_nat] in Hrun.
  rewrite app_nil_r in Hrun. rewrite Hrun.
  unfold drive_steps, masked_levels. now rewrite flat_map_of_map.
Qed.

(** The loop shared by [ShiftRegisterRead] and [ShiftRegisterReadWrite]. *)
Lemma sample_loop_run r es w fuel :
  SizeInOctets r * 8 <= 255 -> (bit_count r < fuel)%nat ->
  for_uint8 fuel SizeInBits
    (fun _ : unit => GetBit ;; ShiftRegisterPulseClock)
    0 tt (with_InputBuffer 0 r, advance es 0 w) =
  Some (tt,
        (with_InputBuffer
           (fold_left shift_in (next_samples w (bit_count r)) 0) r,
         advance (es ++ sample_steps r (next_samples w (bit_count r)))
           (bit_count r) w)).
Proof.
  intros Hb Hfuel.
  pose (st := fun i : nat =>
    (with_InputBuffer (fold_left shift_in (next_samples w i) 0) r,
     advance (es ++ sample_steps r (next_samples w i)) i w)).
  assert (Hrun := for_uint8_run SizeInBits
    (fun _ : unit => GetBit ;; ShiftRegisterPulseClock)
    (SizeInOctets r * 8) st (fun _ => tt) Hb).
  fold (bit_count r) in Hrun.
  specialize (Hrun (fun i _ => SizeInBits_run _ _)).
  assert (Hbody : forall i, (i < bit_count r)%nat ->
    (GetBit ;; ShiftRegisterPulseClock) (st i) = Some (tt, st (S i))).
  { intros i _. unfold st, bind at 1. rewrite GetBit_run.
    rewrite (PulseClock_run (with_InputBuffer _ r)).
    rewrite next_samples_S, fold_left_app. unfold sample_steps.
    rewrite flat_map_app. cbn [fold_left flat_map].
    unfold sample_step at 3. rewrite app_nil_r, <- !app_assoc. reflexivity. }
  specialize (Hrun Hbody fuel 0%nat (Nat.le_0_l _)).
  rewrite Nat.sub_0_r in Hrun. specialize (Hrun Hfuel).
  unfold st, next_samples at 1 2, sample_steps at 1 in Hrun.
  cbn [seq map flat_map fold_left Z.of_nat] in Hrun.
  rewrite app_nil_r in Hrun. exact Hrun.
Qed.

Lemma fill_loop_run r FillValue es k w fuel :
  SizeInOctets r * 8 <= 255 -> (bit_count r < fuel)%nat ->
  for_uint8 fuel SizeInBits
    (fun _ : unit =>
       pin <- field DataOutGPIO ;;
       gpio_put pin (if FillValue =? 0 then false else true) ;;
       ShiftRegisterPulseClock)
    0 tt (r, advance es k w) =
  Some (tt,
        (r, advance (es ++ drive_steps r
                       (repeat (if FillValue =? 0 then false else true)
                          (bit_count r))) k w)).
Proof.
  intros Hb Hfuel.
  pose (st := fun i : nat =>
    (r, advance (es ++ drive_steps r
                   (repeat (if FillValue =? 0 then false else true) i)) k w)).
  assert (Hrun := for_uint8_run SizeInBits
    (fun _ : unit =>
       pin <- field DataOutGPIO ;;
       gpio_put pin (if FillValue =? 0 then false else true) ;;
       ShiftRegisterPulseClock)
    (SizeInOctets r * 8) st (fun _ => tt) Hb).
  fold (bit_count r) in Hrun.
  specialize (Hrun (fun i _ => SizeInBits_run _ _)).
  assert (Hbody : forall i, (i < bit_count r)%nat ->
    (pin <- field DataOutGPIO ;;
     gpio_put pin (if FillValue =? 0 then false else true) ;;
     ShiftRegisterPulseClock) (st i) = Some (tt, st (S i))).
  { intros i _. unfold st, bind at 1, field at 1. cbn [fst snd].
    unfold bind at 1, gpio_put at 1. cbn [fst snd]. rewrite emit_advance.
    rewrite PulseClock_run.
    replace (S i) with (i + 1)%nat by lia.
    rewrite repeat_app. unfold drive_steps. rewrite flat_map_app.
    cbn [repeat flat_map]. unfold drive_step at 2.
    rewrite app_nil_r, <- !app_assoc. reflexivity. }
  specialize (Hrun Hbody fuel 0%nat (Nat.le_0_l _)).
  rewrite Nat.sub_0_r in Hrun. specialize (Hrun Hfuel).
  unfold st in Hrun. cbn [repeat drive_steps flat_map Z.of_nat] in Hrun.
  rewrite app_nil_r in Hrun. exact Hrun.
Qed.

Lemma Write_run r es k w fuel :
  SizeInOctets r * 8 <= 255 -> (bit_count r < fuel)%nat ->
  ShiftRegisterWrite fuel (r, advance es k w) =
  Some (tt, (r, advance (es ++ drive_steps r (masked_levels r) ++ latch_pulse r)
                  k w)).
Proof.
  intros Hb Hfuel. unfold ShiftRegisterWrite.
  unfold bind at 1. rewrite InitialWriteMask_run.
  unfold bind at 1. rewrite drive_loop_run by assumption.
  rewrite PulseLatch_run, <- app_assoc. reflexivity.
Qed.

Lemma Read_run r es w fuel :
  SizeInOctets r * 8 <= 255 -> (bit_count r < fuel)%nat ->
  ShiftRegisterRead fuel (r, advance es 0 w) =
  Some (tt,
        (with_InputBuffer
           (fold_left shift_in (next_samples w (bit_count r)) 0) r,
         advance (es ++ latch_raise r
                     ++ sample_steps r (next_samples w (bit_count r))
                     ++ latch_lower r) (bit_count r) w)).
Proof.
  intros Hb Hfuel. unfold ShiftRegisterRead.
  unfold bind at 1, set_InputBuffer at 1. cbn [fst snd].
  unfold bind at 1, field at 1. cbn [fst snd].
  unfold bind at 1, gpio_put at 1. cbn [fst snd]. rewrite emit_advance.
  unfold bind at 1.
  rewrite (sample_loop_run r) by assumption.
  unfold bind, field, gpio_put. cbn [fst snd]. rewrite emit_advance.
  unfold latch_raise, latch_lower. rewrite <- !app_assoc. reflexivity.
Qed.

Lemma ReadWrite_run r es w fuel :
  SizeInOctets r * 8 <= 255 -> (bit_count r < fuel)%nat ->
  ShiftRegisterReadWrite fuel (r, advance es 0 w) =
  Some (tt,
        (with_InputBuffer
           (fold_left shift_in (next_samples w (bit_count r)) 0) r,
         advance (es ++ drive_steps r (masked_levels r)
                     ++ latch_raise r
                     ++ sample_steps r (next_samples w (bit_count r))
                     ++ latch_lower r) (bit_count r) w)).
Proof.
  intros Hb Hfuel. unfold ShiftRegisterReadWrite.
  unfold bind at 1. rewrite InitialWriteMask_run.
  unfold bind at 1.
  change (fun WriteMask : Z =>
            PutMaskedBit WriteMask;;
            (let WriteMask0 := Z.shiftr WriteMask 1 in
             ShiftRegisterPulseClock;; ret WriteMask0))
    with (fun WriteMask : Z =>
            PutMaskedBit WriteMask;; ShiftRegisterPulseClock;;
            ret (Z.shiftr WriteMask 1)).
  rewrite drive_loop_run by assumption.
  unfold bind at 1, field at 1. cbn [fst snd].
  unfold bind at 1, gpio_put at 1. cbn [fst snd]. rewrite emit_advance.
  unfold bind at 1, set_InputBuffer at 1. cbn [fst snd].
  unfold bind at 1.
  rewrite (InitialWriteMask_run (with_InputBuffer 0 r)).
  unfold bind at 1.
  rewrite (sample_loop_run r) by assumption.
  unfold bind, field, gpio_put. cbn [fst snd]. rewrite emit_advance.
  unfold latch_raise, latch_lower. rewrite <- !app_assoc. reflexivity.
Qed.

Lemma Fill_run r FillValue es k w fuel :
  SizeInOctets r * 8 <= 255 -> (bit_count r < fuel)%nat ->
  ShiftRegisterFill fuel FillValue (r, advance es k w) =
  Some (tt,
        (r, advance (es ++ drive_steps r
                       (repeat (if FillValue =? 0 then false else true)
                          (bit_count r))
                     ++ latch_pulse r) k w)).
Proof.
  intros Hb Hfuel. unfold ShiftRegisterFill.
  unfold bind at 1. rewrite fill_loop_run by assumption.
  rewrite PulseLatch_run, <- app_assoc. reflexivity.
Qed.

(** * Bit-level facts *)

Lemma land_pow2_gtb (j v : Z) :
  0 <= j -> (Z.land (2 ^ j) v >? 0) = Z.testbit v j.
Proof.
  intros Hj. destruct (Z.testbit v j) eqn:E.
  - replace (Z.land (2 ^ j) v) with (2 ^ j).
    + apply Z.gtb_lt. apply Z.pow_pos_nonneg; lia.
    + apply Z.bits_inj'. intros m Hm.
      rewrite Z.land_spec, Z.pow2_bits_eqb by lia.
      destruct (Z.eqb_spec j m); subst; simpl; [now rewrite E | reflexivity].
  - replace (Z.land (2 ^ j) v) with 0; [reflexivity|].
    apply Z.bits_inj'. intros m Hm.
    rewrite Z.land_spec, Z.pow2_bits_eqb, Z.bits_0 by lia.
    destruct (Z.eqb_spec j m); subst; simpl; [now rewrite E | reflexivity].
Qed.

Lemma mask_at_pow2 r (i : nat) :
  1 <= SizeInOctets r <= 4 -> (i < bit_count r)%nat ->
  mask_at r i = 2 ^ (SizeInOctets r * 8 - 1 - Z.of_nat i).
Proof.
  intros HW Hi. unfold bit_count in Hi. unfold mask_at, uint32.
  rewrite Z.shiftl_1_l.
  rewrite Z.mod_small.
  - rewrite Z.shiftr_div_pow2 by lia.
    rewrite <- Z.pow_sub_r by lia. reflexivity.
  - split; [apply Z.pow_nonneg; lia|].
    apply Z.pow_lt_mono_r; lia.
Qed.

Lemma masked_levels_msb_first r :
  1 <= SizeInOctets r <= 4 ->
  masked_levels r =
  map (fun b => xorb b (InvertOutput r))
    (msb_first_bits (bit_count r) (OutputBuffer r)).
Proof.
  intros HW. unfold masked_levels, msb_first_bits. rewrite map_map.
  apply map_ext_in. intros i Hi. apply in_seq in Hi.
  rewrite mask_at_pow2 by (assumption || lia).
  unfold masked_level. unfold bit_count in *.
  rewrite land_pow2_gtb by lia.
  replace (Z.of_nat (Z.to_nat (SizeInOctets r * 8))) with (SizeInOctets r * 8)
    by lia.
  destruct (InvertOutput r), (Z.testbit _ _); reflexivity.
Qed.

Lemma msb_first_value_bound bs :
  0 <= msb_first_value bs < 2 ^ Z.of_nat (length bs).
Proof.
  induction bs as [|b bs IH]; [simpl; lia|].
  cbn [msb_first_value length]. rewrite Nat2Z.inj_succ, Z.pow_succ_r by lia.
  destruct b; cbn [Z.b2z]; lia.
Qed.

Lemma shift_in_small acc b :
  0 <= acc < 2 ^ 31 -> shift_in acc b = 2 * acc + Z.b2z b.
Proof.
  intros H. unfold shift_in, uint32. rewrite Z.shiftl_mul_pow2 by lia.
  change (2 ^ 1) with 2. change (2 ^ 31) with 2147483648 in H.
  change (2 ^ 32) with 4294967296.
  rewrite (Z.mod_small (acc * 2)) by lia.
  destruct b; cbn [Z.b2z]; rewrite Z.mod_small; lia.
Qed.

Lemma fold_shift_in bs : forall acc,
  0 <= acc -> (acc + 1) * 2 ^ Z.of_nat (length bs) <= 2 ^ 32 ->
  fold_left shift_in bs acc =
  acc * 2 ^ Z.of_nat (length bs) + msb_first_value bs.
Proof.
  induction bs as [|b bs IH]; intros acc H0 H.
  - simpl. lia.
  - cbn [fold_left msb_first_value length].
    cbn [length] in H.
    rewrite Nat2Z.inj_succ, Z.pow_succ_r in H |- * by lia.
    assert (Hp : 1 <= 2 ^ Z.of_nat (length bs))
      by (apply Z.lt_pred_le, Z.pow_pos_nonneg; lia).
    change (2 ^ 32) with 4294967296 in H.
    rewrite shift_in_small
      by (change (2 ^ 31) with 2147483648; nia).
    rewrite IH.
    + destruct b; cbn [Z.b2z]; lia.
    + destruct b; cbn [Z.b2z]; lia.
    + change (2 ^ 32) with 4294967296.
      destruct b; cbn [Z.b2z]; nia.
Qed.

Lemma fold_shift_in_value bs :
  (length bs <= 32)%nat -> fold_left shift_in bs 0 = msb_first_value bs.
Proof.
  intros H. rewrite fold_shift_in; [lia | lia |].
  rewrite Z.add_0_l, Z.mul_1_l. apply Z.pow_le_mono_r; lia.
Qed.

Lemma next_samples_length w n : length (next_samples w n) = n.
Proof. unfold next_samples. now rewrite length_map, length_seq. Qed.

Lemma msb_first_bits_length n v : length (msb_first_bits n v) = n.
Proof. unfold msb_first_bits. now rewrite length_map, length_seq. Qed.

Lemma msb_first_bits_S n v :
  msb_first_bits (S n) v =
  Z.testbit v (Z.of_nat n) :: msb_first_bits n (v mod 2 ^ Z.of_nat n).
Proof.
  unfold msb_first_bits. cbn [seq map]. f_equal.
  - f_equal. lia.
  - rewrite <- seq_shift, map_map. apply map_ext_in.
    intros i Hi. apply in_seq in Hi.
    rewrite Z.mod_pow2_bits_low by lia. f_equal. lia.
Qed.

(** Reading a value's bits most significant first gives the value back. *)
Lemma msb_first_roundtrip n : forall v,
  0 <= v < 2 ^ Z.of_nat n -> msb_first_value (msb_first_bits n v) = v.
Proof.
  induction n as [|n IH]; intros v Hv.
  - simpl in *. lia.
  - rewrite msb_first_bits_S. cbn [msb_first_value].
    rewrite msb_first_bits_length.
    rewrite IH by (apply Z.mod_pos_bound, Z.pow_pos_nonneg; lia).
    rewrite Z.testbit_spec' by lia.
    rewrite Nat2Z.inj_succ, Z.pow_succ_r in Hv by lia.
    assert (Hp : 0 < 2 ^ Z.of_nat n) by (apply Z.pow_pos_nonneg; lia).
    assert (Hq : 0 <= v / 2 ^ Z.of_nat n < 2).
    { split; [apply Z.div_pos; lia|].
      apply Z.div_lt_upper_bound; lia. }
    rewrite (Z.mod_small (v / 2 ^ Z.of_nat n)) by lia.
    pose proof (Z.div_mod v (2 ^ Z.of_nat n)). lia.
Qed.

Lemma masked_levels_within_width r :
  SizeInOctets r <= 4 ->
  masked_levels r =
  map (fun b => xorb b (InvertOutput r))
    (msb_first_bits (bit_count r) (OutputBuffer r)).
Proof.
  intros HW. destruct (Z_lt_le_dec (SizeInOctets r) 1) as [Hz|Hp].
  - unfold masked_levels, msb_first_bits, bit_count.
    replace (Z.to_nat (SizeInOctets r * 8)) with 0%nat by lia. reflexivity.
  - apply masked_levels_msb_first. lia.
Qed.

Lemma bit_count_within_width r :
  SizeInOctets r <= 4 -> (bit_count r <= 32)%nat.
Proof. unfold bit_count. lia. Qed.

Lemma shift_or_add buf level : shift_or buf level = 2 * buf + Z.b2z level.
Proof.
  unfold shift_or.
  assert (H : Z.land (Z.shiftl buf 1) (Z.b2z level) = 0).
  { apply Z.bits_inj'. intros m Hm. rewrite Z.land_spec, Z.bits_0.
    destruct (Z.eq_dec m 0) as [->|Hne].
    - now rewrite Z.shiftl_spec_low by lia.
    - replace (Z.testbit (Z.b2z level) m) with false;
        [apply andb_false_r|].
      destruct level; cbn [Z.b2z]; [|now rewrite Z.bits_0].
      symmetry. apply (Z.pow2_bits_false 0 m). lia. }
  rewrite <- Z.lxor_lor by exact H.
  rewrite <- Z.add_nocarry_lxor by exact H.
  rewrite Z.shiftl_mul_pow2 by lia. change (2 ^ 1) with 2. lia.
Qed.

Lemma fold_shift_or bs : forall acc,
  fold_left shift_or bs acc =
  acc * 2 ^ Z.of_nat (length bs) + msb_first_value bs.
Proof.
  induction bs as [|b bs IH]; intros acc.
  - simpl. lia.
  - cbn [fold_left msb_first_value length].
    rewrite IH, shift_or_add, Nat2Z.inj_succ, Z.pow_succ_r by lia. lia.
Qed.

Lemma fold_shift_or_value bs : fold_left shift_or bs 0 = msb_first_value bs.
Proof. rewrite fold_shift_or. lia. Qed.

(** Sample [i] of a list sits at bit [length - 1 - i] of its value. *)
Lemma msb_first_value_testbit bs : forall i, (i < length bs)%nat ->
  Z.testbit (msb_first_value bs) (Z.of_nat (length bs) - 1 - Z.of_nat i) =
  nth i bs false.
Proof.
  induction bs as [|b bs IH]; intros i Hi; [simpl in Hi; lia|].
  cbn [msb_first_value length nth] in *.
  pose proof (msb_first_value_bound bs) as Hb.
  set (n := Z.of_nat (length bs)) in *.
  assert (Hp : 0 < 2 ^ n) by (apply Z.pow_pos_nonneg; lia).
  destruct i as [|i].
  - replace (Z.of_nat (S (length bs)) - 1 - Z.of_nat 0) with n by lia.
    destruct b; cbn [Z.b2z].
    + apply Z.testbit_true; [lia|].
      replace ((1 * 2 ^ n + msb_first_value bs) / 2 ^ n) with 1; [reflexivity|].
      apply Z.div_unique with (r := msb_first_value bs); lia.
    + rewrite Z.mul_0_l, Z.add_0_l.
      destruct (Z.eq_dec (msb_first_value bs) 0) as [->|Hne];
        [apply Z.bits_0|].
      apply Z.bits_above_log2; [lia|].
      apply Z.log2_lt_pow2; lia.
  - replace (Z.of_nat (S (length bs)) - 1 - Z.of_nat (S i))
      with (n - 1 - Z.of_nat i) by lia.
    rewrite <- (IH i) by lia. fold n.
    rewrite <- (Z.mod_pow2_bits_low _ n) by lia.
    f_equal. rewrite Z.add_comm, Z.mod_add by lia.
    apply Z.mod_small. lia.
Qed.

(** Complementing a value complements each of its bits. *)
Lemma msb_first_bits_lnot n v :
  msb_first_bits n (Z.lnot v) = map negb (msb_first_bits n v).
Proof.
  unfold msb_first_bits. rewrite map_map. apply map_ext_in.
  intros i Hi. apply in_seq in Hi. apply Z.lnot_spec. lia.
Qed.

(** * The levels a pin receives *)

Lemma levels_put_app pin t1 t2 :
  levels_put pin (t1 ++ t2) = levels_put pin t1 ++ levels_put pin t2.
Proof.
  induction t1 as [|e t1 IH]; [reflexivity|].
  destruct e; cbn [levels_put app]; try exact IH.
  destruct (_ =? _); cbn [app]; now rewrite IH.
Qed.

Lemma levels_put_clock_pulse pin r :
  pin <> ClockGPIO r -> levels_put pin (clock_pulse r) = [].
Proof.
  intros H. unfold clock_pulse. cbn [levels_put].
  destruct (Z.eqb_spec (ClockGPIO r) pin); [congruence | reflexivity].
Qed.

Lemma levels_put_latch_pulse pin r :
  pin <> LatchGPIO r -> levels_put pin (latch_pulse r) = [].
Proof.
  intros H. unfold latch_pulse. cbn [levels_put].
  destruct (Z.eqb_spec (LatchGPIO r) pin); [congruence | reflexivity].
Qed.

Lemma levels_put_drive_steps r levels :
  DataOutGPIO r <> ClockGPIO r ->
  levels_put (DataOutGPIO r) (drive_steps r levels) = levels.
Proof.
  intros H. induction levels as [|b levels IH]; [reflexivity|].
  unfold drive_steps in *. cbn [flat_map]. unfold drive_step at 1.
  cbn [app levels_put]. rewrite Z.eqb_refl, levels_put_app.
  rewrite levels_put_clock_pulse by assumption. cbn [app]. now rewrite IH.
Qed.

(** * Frame lemmas: what the transfers leave alone *)

Lemma same_but_InputBuffer_refl r : same_but_InputBuffer r r.
Proof. unfold same_but_InputBuffer. now destruct r. Qed.

Lemma same_but_InputBuffer_set r v r' :
  same_but_InputBuffer r r' -> same_but_InputBuffer r (with_InputBuffer v r').
Proof.
  unfold same_but_InputBuffer. intros H. rewrite H. reflexivity.
Qed.

Lemma PulseClock_preserves Q :
  preserves (fun s => Q (fst s)) ShiftRegisterPulseClock.
Proof. unfold ShiftRegisterPulseClock. frame_steps. Qed.

Lemma PulseLatch_preserves Q :
  preserves (fun s => Q (fst s)) ShiftRegisterPulseLatch.
Proof. unfold ShiftRegisterPulseLatch. frame_steps. Qed.

Lemma SizeInBits_preserves Q : preserves (fun s => Q (fst s)) SizeInBits.
Proof. unfold SizeInBits. frame_steps. Qed.

Lemma InitialWriteMask_preserves Q :
  preserves (fun s => Q (fst s)) InitialWriteMask.
Proof. unfold InitialWriteMask. frame_steps. Qed.

Lemma PutMaskedBit_preserves Q mask :
  preserves (fun s => Q (fst s)) (PutMaskedBit mask).
Proof. unfold PutMaskedBit. frame_steps. Qed.

#[local] Hint Resolve PulseClock_preserves PulseLatch_preserves
  SizeInBits_preserves InitialWriteMask_preserves PutMaskedBit_preserves
  : frame.

Lemma Write_preserves Q fuel :
  preserves (fun s => Q (fst s)) (ShiftRegisterWrite fuel).
Proof. unfold ShiftRegisterWrite. frame_steps. Qed.

Lemma Fill_preserves Q fuel FillValue :
  preserves (fun s => Q (fst s)) (ShiftRegisterFill fuel FillValue).
Proof. unfold ShiftRegisterFill. frame_steps. Qed.

Lemma set_InputBuffer_same_but r v :
  preserves (fun s => same_but_InputBuffer r (fst s)) (set_InputBuffer v).
Proof.
  apply (preserves_set_InputBuffer (same_but_InputBuffer r)).
  intros r'. apply same_but_InputBuffer_set.
Qed.

#[local] Hint Resolve set_InputBuffer_same_but : frame.

Lemma GetBit_same_but r :
  preserves (fun s => same_but_InputBuffer r (fst s)) GetBit.
Proof. unfold GetBit. frame_steps. Qed.

#[local] Hint Resolve GetBit_same_but : frame.

Lemma Read_same_but r fuel :
  preserves (fun s => same_but_InputBuffer r (fst s)) (ShiftRegisterRead fuel).
Proof. unfold ShiftRegisterRead. frame_steps. Qed.

Lemma ReadWrite_same_but r fuel :
  preserves (fun s => same_but_InputBuffer r (fst s))
    (ShiftRegisterReadWrite fuel).
Proof. unfold ShiftRegisterReadWrite. frame_steps. Qed.

(** * The transfer cycles within the supported width *)

Lemma Write_cycle_run r es k w fuel :
  SizeInOctets r <= 4 -> (bit_count r < fuel)%nat ->
  ShiftRegisterWrite fuel (r, advance es k w) =
  Some (tt, (r, advance (es ++ write_cycle r) k w)).
Proof.
  intros HW Hfuel. rewrite Write_run by (assumption || lia).
  unfold write_cycle, output_levels.
  now rewrite masked_levels_within_width.
Qed.

Lemma Read_cycle_run r es w fuel :
  SizeInOctets r <= 4 -> (bit_count r < fuel)%nat ->
  ShiftRegisterRead fuel (r, advance es 0 w) =
  Some (tt,
        (with_InputBuffer (msb_first_value (next_samples w (bit_count r))) r,
         advance (es ++ read_cycle r (next_samples w (bit_count r)))
           (bit_count r) w)).
Proof.
  intros HW Hfuel. rewrite Read_run by (assumption || lia).
  rewrite fold_shift_in_value
    by (rewrite next_samples_length; now apply bit_count_within_width).
  reflexivity.
Qed.

Lemma ReadWrite_cycle_run r es w fuel :
  SizeInOctets r <= 4 -> (bit_count r < fuel)%nat ->
  ShiftRegisterReadWrite fuel (r, advance es 0 w) =
  Some (tt,
        (with_InputBuffer (msb_first_value (next_samples w (bit_count r))) r,
         advance (es ++ hybrid_cycle r (next_samples w (bit_count r)))
           (bit_count r) w)).
Proof.
  intros HW Hfuel. rewrite ReadWrite_run by (assumption || lia).
  rewrite fold_shift_in_value
    by (rewrite next_samples_length; now apply bit_count_within_width).
  unfold hybrid_cycle, output_levels.
  now rewrite masked_levels_within_width.
Qed.

Lemma Update_run r es w fuel :
  SizeInOctets r <= 4 -> (bit_count r < fuel)%nat ->
  ShiftRegisterUpdate fuel (r, advance es 0 w) =
  match transfer_cycle r w with
  | (r', cycle, k) => Some (tt, (r', advance (es ++ cycle) k w))
  end.
Proof.
  intros HW Hfuel. unfold ShiftRegisterUpdate, transfer_cycle.
  unfold bind at 1, field at 1. cbn [fst snd].
  destruct (Type_ r =? SHIFTREGISTER_INPUT);
    [now apply Read_cycle_run|].
  destruct (Type_ r =? SHIFTREGISTER_OUTPUT);
    [now apply Write_cycle_run|].
  destruct (Type_ r =? SHIFTREGISTER_HYBRID);
    [now apply ReadWrite_cycle_run|].
  unfold ret. now rewrite app_nil_r.
Qed.

Lemma Update_unknown_mode r w fuel :
  Type_ r <> SHIFTREGISTER_INPUT -> Type_ r <> SHIFTREGISTER_OUTPUT ->
  Type_ r <> SHIFTREGISTER_HYBRID ->
  ShiftRegisterUpdate fuel (r, w) = Some (tt, (r, w)).
Proof.
  intros H0 H1 H2. unfold ShiftRegisterUpdate, bind, field. cbn [fst snd].
  destruct (Z.eqb_spec (Type_ r) SHIFTREGISTER_INPUT); [contradiction|].
  destruct (Z.eqb_spec (Type_ r) SHIFTREGISTER_OUTPUT); [contradiction|].
  destruct (Z.eqb_spec (Type_ r) SHIFTREGISTER_HYBRID); [contradiction|].
  reflexivity.
Qed.

Lemma Create_null fuel mode clock data_in data_out latch initial width w :
  MAX_SIZEINOCTETS < width ->
  ShiftRegisterCreate fuel mode clock data_in data_out latch initial width w =
  Some (None, w).
Proof.
  intros H. unfold ShiftRegisterCreate.
  destruct (Z.gtb_spec width MAX_SIZEINOCTETS); [reflexivity | lia].
Qed.

(** Within the width limit, [ShiftRegisterCreate] is its pin set-up, the
    filling of the struct, and one call of [ShiftRegisterUpdate]. *)
Lemma Create_setup fuel mode clock data_in data_out latch initial width w :
  width <= MAX_SIZEINOCTETS ->
  ShiftRegisterCreate fuel mode clock data_in data_out latch initial width w =
  match ShiftRegisterUpdate fuel
          (fresh_register mode clock data_in data_out latch initial width,
           advance (setup_events clock data_in data_out latch) 0 w) with
  | Some (_, (r, w')) => Some (Some r, w')
  | None => None
  end.
Proof.
  intros H. unfold ShiftRegisterCreate.
  destruct (Z.gtb_spec width MAX_SIZEINOCTETS); [lia|].
  match goal with
  | |- match ShiftRegisterUpdate _ (?r1, ?w1) with _ => _ end =
       match ShiftRegisterUpdate _ (?r2, ?w2) with _ => _ end =>
      replace w1 with w2; [reflexivity|]
  end.
  unfold setup_events, emit, advance.
  destruct (data_in =? 0), (data_out =? 0);
    cbn [negb trace samples reads app Nat.add];
    rewrite <- ?app_assoc; reflexivity.
Qed.

Lemma Create_run fuel mode clock data_in data_out latch initial width w :
  width <= MAX_SIZEINOCTETS -> (Z.to_nat (width * 8) < fuel)%nat ->
  ShiftRegisterCreate fuel mode clock data_in data_out latch initial width w =
  match transfer_cycle
          (fresh_register mode clock data_in data_out latch initial width) w
  with
  | (r, cycle, k) =>
      Some (Some r,
            advance (setup_events clock data_in data_out latch ++ cycle) k w)
  end.
Proof.
  intros H Hfuel. rewrite Create_setup by assumption.
  rewrite Update_run.
  - now destruct (transfer_cycle _ w) as [[r cycle] k].
  - exact H.
  - exact Hfuel.
Qed.

Lemma with_InputBuffer_twice v a r :
  with_InputBuffer v (with_InputBuffer a r) = with_InputBuffer v r.
Proof. reflexivity. Qed.

Lemma InputBuffer_with a r : InputBuffer (with_InputBuffer a r) = a.
Proof. reflexivity. Qed.

Lemma DataInGPIO_with a r : DataInGPIO (with_InputBuffer a r) = DataInGPIO r.
Proof. reflexivity. Qed.

(** The documented order of the read transfer, run. *)
Lemma Read_as_documented_run r w fuel :
  SizeInOctets r * 8 <= 255 -> (bit_count r < fuel)%nat ->
  Read_as_documented fuel (r, w) =
  Some (tt,
        (with_InputBuffer
           (fold_left shift_or (next_samples w (bit_count r)) 0) r,
         advance (read_cycle r (next_samples w (bit_count r)))
           (bit_count r) w)).
Proof.
  intros Hb Hfuel. unfold Read_as_documented.
  unfold bind at 1, field at 1. cbn [fst snd].
  unfold bind at 1, gpio_put at 1. cbn [fst snd].
  unfold bind at 1, set_InputBuffer at 1. cbn [fst snd].
  change (emit (gpio_put_ev (LatchGPIO r) true) w)
    with (advance (latch_raise r) 0 w).
  pose (st := fun i : nat =>
    (with_InputBuffer (fold_left shift_or (next_samples w i) 0) r,
     advance (latch_raise r ++ sample_steps r (next_samples w i)) i w)).
  assert (Hrun := for_uint8_run SizeInBits
    (fun _ : unit =>
       buf <- field InputBuffer ;;
       pin <- field DataInGPIO ;; level <- gpio_get pin ;;
       set_InputBuffer (shift_or buf level) ;;
       ShiftRegisterPulseClock)
    (SizeInOctets r * 8) st (fun _ => tt) Hb).
  fold (bit_count r) in Hrun.
  specialize (Hrun (fun i _ => SizeInBits_run _ _)).
  assert (Hbody : forall i, (i < bit_count r)%nat ->
    (buf <- field InputBuffer ;;
     pin <- field DataInGPIO ;; level <- gpio_get pin ;;
     set_InputBuffer (shift_or buf level) ;;
     ShiftRegisterPulseClock) (st i) = Some (tt, st (S i))).
  { intros i _. unfold st.
    unfold bind at 1, field at 1. cbn [fst snd].
    unfold bind at 1, field at 1. cbn [fst snd].
    unfold bind at 1, gpio_get at 1. cbn [fst snd].
    rewrite sample_advance.
    unfold bind at 1, set_InputBuffer at 1. cbn [fst snd].
    rewrite with_InputBuffer_twice, InputBuffer_with, DataInGPIO_with.
    rewrite (PulseClock_run (with_InputBuffer _ r)).
    rewrite next_samples_S, fold_left_app. unfold sample_steps.
    rewrite flat_map_app. cbn [fold_left flat_map].
    unfold sample_step at 3. rewrite app_nil_r, <- !app_assoc. reflexivity. }
  specialize (Hrun Hbody fuel 0%nat (Nat.le_0_l _)).
  rewrite Nat.sub_0_r in Hrun. specialize (Hrun Hfuel).
  unfold st, next_samples at 1 2, sample_steps at 1 in Hrun.
  cbn [seq map flat_map fold_left Z.of_nat] in Hrun.
  rewrite app_nil_r in Hrun.
  unfold bind at 1. rewrite Hrun.
  unfold bind, field, gpio_put. cbn [fst snd]. rewrite emit_advance.
  unfold read_cycle, latch_lower. rewrite <- !app_assoc. reflexivity.
Qed.

Lemma nth_msb_first_bits n v i d :
  (i < n)%nat ->
  nth i (msb_first_bits n v) d = Z.testbit v (Z.of_nat n - 1 - Z.of_nat i).
Proof.
  intros Hi. unfold msb_first_bits.
  rewrite (nth_indep _ d (Z.testbit v (Z.of_nat n - 1 - Z.of_nat 0)))
    by (now rewrite length_map, length_seq).
  rewrite (map_nth (fun i => Z.testbit v (Z.of_nat n - 1 - Z.of_nat i))).
  now rewrite seq_nth.
Qed.

Lemma output_levels_length r : length (output_levels r) = bit_count r.
Proof. unfold output_levels. now rewrite length_map, msb_first_bits_length. Qed.

Lemma nth_output_levels r i :
  (i < bit_count r)%nat ->
  nth i (output_levels r) false =
  xorb (Z.testbit (OutputBuffer r) (Z.of_nat (bit_count r) - 1 - Z.of_nat i))
    (InvertOutput r).
Proof.
  intros Hi. unfold output_levels.
  rewrite (nth_indep _ false (xorb false (InvertOutput r)))
    by (now rewrite length_map, msb_first_bits_length).
  rewrite (map_nth (fun b => xorb b (InvertOutput r))).
  now rewrite nth_msb_first_bits.
Qed.

Lemma levels_put_sample_steps pin r levels :
  pin <> ClockGPIO r -> levels_put pin (sample_steps r levels) = [].
Proof.
  intros H. induction levels as [|b levels IH]; [reflexivity|].
  unfold sample_steps in *. cbn [flat_map]. unfold sample_step at 1.
  cbn [app levels_put]. rewrite levels_put_app.
  now rewrite levels_put_clock_pulse, IH.
Qed.

Lemma levels_put_drive_steps_other pin r levels :
  pin <> ClockGPIO r -> pin <> DataOutGPIO r ->
  levels_put pin (drive_steps r levels) = [].
Proof.
  intros Hc Hd. induction levels as [|b levels IH]; [reflexivity|].
  unfold drive_steps in *. cbn [flat_map]. unfold drive_step at 1.
  cbn [app levels_put].
  destruct (Z.eqb_spec (DataOutGPIO r) pin); [congruence|].
  rewrite levels_put_app. now rewrite levels_put_clock_pulse, IH.
Qed.

(** * The documented properties, checked *)

(** C1 (the code departs from it): [ShiftRegisterFill] is documented to
    drive its constant level subject to [InvertOutput].  On a register with
    [InvertOutput] set, Fill(0) drives eight low levels and Fill(1) eight
    high levels on data-out (pin 3), each followed by a clock pulse, and
    then pulses the latch: the raw levels, not the flipped ones. *)
Theorem Fill_on_inverting_register_is_not_inverted :
  InvertOutput example_inverting_register = true
  /\ ShiftRegisterFill 9 0 (example_inverting_register, idle_world) =
     Some (tt, (example_inverting_register,
                advance (drive_steps example_inverting_register
                           (repeat false 8)
                         ++ latch_pulse example_inverting_register)
                  0 idle_world))
  /\ ShiftRegisterFill 9 1 (example_inverting_register, idle_world) =
     Some (tt, (example_inverting_register,
                advance (drive_steps example_inverting_register
                           (repeat true 8)
                         ++ latch_pulse example_inverting_register)
                  0 idle_world))
  /\ levels_put 3
       (drive_steps example_inverting_register (repeat false 8)
        ++ latch_pulse example_inverting_register) = repeat false 8.
Proof.
  split; [reflexivity|].
  assert (Hw : SizeInOctets example_inverting_register * 8 <= 255)
    by (cbn; lia).
  assert (Hf : (bit_count example_inverting_register < 9)%nat)
    by (unfold bit_count; cbn; lia).
  rewrite <- (advance_nil idle_world) at 1 3.
  rewrite !Fill_run by assumption.
  repeat split.
Qed.

(** C2: for a register of 1 to 4 octets, [ShiftRegisterWrite] drives
    exactly [W*8] levels on data-out, each followed by one clock pulse,
    then one latch pulse, and nothing else; the level at step [i] is bit
    [W*8-1-i] of [OutputBuffer] XOR [InvertOutput]; the struct, and with it
    [OutputBuffer], is unchanged; with [InvertOutput] set the levels are
    the bits of the complement of [OutputBuffer]. *)
Theorem Write_drives_msb_first (r : ShiftRegister) (w : World) (fuel : nat) :
  1 <= SizeInOctets r <= 4 -> (bit_count r < fuel)%nat ->
  ShiftRegisterWrite fuel (r, w) =
    Some (tt, (r, advance (drive_steps r (output_levels r) ++ latch_pulse r)
                    0 w))
  /\ length (output_levels r) = Z.to_nat (SizeInOctets r * 8)
  /\ (forall i, (i < bit_count r)%nat ->
        nth i (output_levels r) false =
        xorb (Z.testbit (OutputBuffer r)
                (SizeInOctets r * 8 - 1 - Z.of_nat i))
          (InvertOutput r))
  /\ (InvertOutput r = true ->
        output_levels r =
        msb_first_bits (bit_count r) (Z.lnot (OutputBuffer r))).
Proof.
  intros HW Hfuel. repeat split.
  - rewrite <- (advance_nil w) at 1.
    now rewrite Write_cycle_run by (assumption || lia).
  - apply output_levels_length.
  - intros i Hi. rewrite nth_output_levels by assumption.
    unfold bit_count. do 2 f_equal. lia.
  - intros Hinv. unfold output_levels.
    rewrite Hinv, msb_first_bits_lnot.
    apply map_ext. intros b. now destruct b.
Qed.

Lemma Write_drives_msb_first_witness :
  ShiftRegisterWrite 9 (example_inverting_register, idle_world) =
  Some (tt, (example_inverting_register,
             advance (drive_steps example_inverting_register
                        [false; true; true; true; true; true; true; true]
                      ++ latch_pulse example_inverting_register)
               0 idle_world)).
Proof.
  assert (HW : 1 <= SizeInOctets example_inverting_register <= 4)
    by (cbn; lia).
  assert (Hf : (bit_count example_inverting_register < 9)%nat)
    by (unfold bit_count; cbn; lia).
  exact (proj1 (Write_drives_msb_first example_inverting_register idle_world
                  9 HW Hf)).
Defined.

(** C3: for a register of 1 to 4 octets, [ShiftRegisterRead] raises the
    latch, takes [W*8] samples of data-in, each followed by one clock
    pulse, and lowers the latch; it leaves in [InputBuffer] the sum of
    [b_i * 2^(W*8-1-i)] over the sampled levels, so that sample [i] is bit
    [W*8-1-i]; and it agrees with the transfer written in the documented
    order (latch up, buffer cleared, shift left and OR per sample). *)
Theorem Read_collects_msb_first (r : ShiftRegister) (w : World) (fuel : nat) :
  1 <= SizeInOctets r <= 4 -> (bit_count r < fuel)%nat ->
  ShiftRegisterRead fuel (r, w) =
    Some (tt,
          (with_InputBuffer (msb_first_value (next_samples w (bit_count r))) r,
           advance (latch_raise r
                    ++ sample_steps r (next_samples w (bit_count r))
                    ++ latch_lower r) (bit_count r) w))
  /\ ShiftRegisterRead fuel (r, w) = Read_as_documented fuel (r, w)
  /\ (forall i, (i < bit_count r)%nat ->
        Z.testbit (msb_first_value (next_samples w (bit_count r)))
          (SizeInOctets r * 8 - 1 - Z.of_nat i) =
        samples w (i + reads w)%nat).
Proof.
  intros HW Hfuel.
  assert (Hrun : ShiftRegisterRead fuel (r, w) =
    Some (tt,
          (with_InputBuffer (msb_first_value (next_samples w (bit_count r))) r,
           advance (read_cycle r (next_samples w (bit_count r)))
             (bit_count r) w))).
  { rewrite <- (advance_nil w) at 1.
    now rewrite Read_cycle_run by (assumption || lia). }
  split; [exact Hrun|]. split.
  - rewrite Hrun, Read_as_documented_run by (assumption || lia).
    now rewrite fold_shift_or_value.
  - intros i Hi.
    pose proof (msb_first_value_testbit (next_samples w (bit_count r)) i)
      as Hbit.
    rewrite next_samples_length in Hbit. specialize (Hbit Hi).
    replace (SizeInOctets r * 8) with (Z.of_nat (bit_count r))
      by (unfold bit_count; lia).
    rewrite Hbit. unfold next_samples.
    rewrite (nth_indep _ false (samples w (0 + reads w)%nat))
      by (now rewrite length_map, length_seq).
    rewrite (map_nth (fun i => samples w (i + reads w)%nat)).
    now rewrite seq_nth.
Qed.

Lemma Read_collects_msb_first_witness :
  ShiftRegisterRead 9
    (example_input_register,
     world_feeding [true; false; true; false; false; false; true; true]) =
  Some (tt,
        (with_InputBuffer 163 example_input_register,
         advance (latch_raise example_input_register
                  ++ sample_steps example_input_register
                       [true; false; true; false; false; false; true; true]
                  ++ latch_lower example_input_register) 8
           (world_feeding
              [true; false; true; false; false; false; true; true]))).
Proof.
  assert (HW : 1 <= SizeInOctets example_input_register <= 4)
    by (cbn; lia).
  assert (Hf : (bit_count example_input_register < 9)%nat)
    by (unfold bit_count; cbn; lia).
  exact (proj1 (Read_collects_msb_first example_input_register
                  (world_feeding
                     [true; false; true; false; false; false; true; true])
                  9 HW Hf)).
Defined.

(** C4: for a register of 1 to 4 octets, [ShiftRegisterReadWrite] emits,
    in this order and nothing else: [W*8] drive-then-clock steps carrying
    [OutputBuffer] most significant bit first with [InvertOutput] applied;
    one raising of the latch; [W*8] sample-then-clock steps; one lowering
    of the latch.  [InputBuffer] ends as the most-significant-first value
    of the samples.  On a latch pin of its own, the latch sees exactly one
    high and then one low level, and the clock pin gets nothing but the
    [2*W*8] pulses. *)
Theorem ReadWrite_cycle_order (r : ShiftRegister) (w : World) (fuel : nat) :
  1 <= SizeInOctets r <= 4 -> (bit_count r < fuel)%nat ->
  ShiftRegisterReadWrite fuel (r, w) =
    Some (tt,
          (with_InputBuffer (msb_first_value (next_samples w (bit_count r))) r,
           advance (drive_steps r (output_levels r)
                    ++ latch_raise r
                    ++ sample_steps r (next_samples w (bit_count r))
                    ++ latch_lower r) (bit_count r) w))
  /\ (LatchGPIO r <> ClockGPIO r -> LatchGPIO r <> DataOutGPIO r ->
      levels_put (LatchGPIO r)
        (drive_steps r (output_levels r)
         ++ latch_raise r
         ++ sample_steps r (next_samples w (bit_count r))
         ++ latch_lower r) = [true; false])
  /\ (LatchGPIO r <> ClockGPIO r -> LatchGPIO r <> DataOutGPIO r ->
      levels_put (LatchGPIO r) (drive_steps r (output_levels r)) = []).
Proof.
  intros HW Hfuel. split; [|split].
  - rewrite <- (advance_nil w) at 1.
    now rewrite ReadWrite_cycle_run by (assumption || lia).
  - intros Hc Hd. rewrite !levels_put_app.
    rewrite levels_put_drive_steps_other, levels_put_sample_steps
      by assumption.
    unfold latch_raise, latch_lower. cbn [levels_put app].
    now rewrite Z.eqb_refl.
  - intros Hc Hd. now apply levels_put_drive_steps_other.
Qed.

Lemma ReadWrite_cycle_order_witness :
  ShiftRegisterReadWrite 9
    (example_hybrid_register,
     world_feeding [true; false; true; false; false; false; true; true]) =
  Some (tt,
        (with_InputBuffer 163 example_hybrid_register,
         advance (drive_steps example_hybrid_register
                    [true; false; false; false; false; false; false; false]
                  ++ latch_raise example_hybrid_register
                  ++ sample_steps example_hybrid_register
                       [true; false; true; false; false; false; true; true]
                  ++ latch_lower example_hybrid_register) 8
           (world_feeding
              [true; false; true; false; false; false; true; true]))).
Proof.
  assert (HW : 1 <= SizeInOctets example_hybrid_register <= 4)
    by (cbn; lia).
  assert (Hf : (bit_count example_hybrid_register < 9)%nat)
    by (unfold bit_count; cbn; lia).
  exact (proj1 (ReadWrite_cycle_order example_hybrid_register
                  (world_feeding
                     [true; false; true; false; false; false; true; true])
                  9 HW Hf)).
Defined.

(** C5: for a register of 1 to 4 octets with [InvertOutput] clear and an
    [OutputBuffer] that fits its width, the levels [ShiftRegisterWrite]
    drives on data-out (on a data-out pin of its own, exactly the levels
    that pin receives), fed in the same order to the samples of a
    following [ShiftRegisterRead], leave [OutputBuffer]'s value in
    [InputBuffer]. *)
Theorem Write_then_Read_loopback (r : ShiftRegister) (w : World) (fuel : nat) :
  1 <= SizeInOctets r <= 4 -> InvertOutput r = false ->
  0 <= OutputBuffer r < 2 ^ (SizeInOctets r * 8) ->
  (bit_count r < fuel)%nat ->
  exists driven : list bool,
    ShiftRegisterWrite fuel (r, w) =
      Some (tt, (r, advance (drive_steps r driven ++ latch_pulse r) 0 w))
    /\ (DataOutGPIO r <> ClockGPIO r -> DataOutGPIO r <> LatchGPIO r ->
        levels_put (DataOutGPIO r) (drive_steps r driven ++ latch_pulse r) =
        driven)
    /\ forall w2 : World,
         next_samples w2 (bit_count r) = driven ->
         exists w3 : World,
           ShiftRegisterRead fuel (r, w2) =
           Some (tt, (with_InputBuffer (OutputBuffer r) r, w3)).
Proof.
  intros HW Hinv HV Hfuel. exists (output_levels r). split; [|split].
  - rewrite <- (advance_nil w) at 1.
    now rewrite Write_cycle_run by (assumption || lia).
  - intros Hc Hl. rewrite levels_put_app, levels_put_drive_steps by assumption.
    rewrite levels_put_latch_pulse by assumption. apply app_nil_r.
  - intros w2 Hfed. eexists.
    rewrite <- (advance_nil w2) at 1.
    rewrite Read_cycle_run by (assumption || lia).
    rewrite Hfed. unfold output_levels. rewrite Hinv.
    rewrite (map_ext (fun b => xorb b false) (fun b => b))
      by (intros b; now destruct b).
    rewrite map_id, msb_first_roundtrip; [reflexivity|].
    replace (Z.of_nat (bit_count r)) with (SizeInOctets r * 8)
      by (unfold bit_count; lia).
    exact HV.
Qed.

Lemma Write_then_Read_loopback_witness :
  exists driven : list bool,
    ShiftRegisterWrite 9 (example_output_register, idle_world) =
      Some (tt, (example_output_register,
                 advance (drive_steps example_output_register driven
                          ++ latch_pulse example_output_register)
                   0 idle_world))
    /\ exists w3 : World,
         ShiftRegisterRead 9 (example_output_register, world_feeding driven) =
         Some (tt, (with_InputBuffer 128 example_output_register, w3)).
Proof.
  assert (HW : 1 <= SizeInOctets example_output_register <= 4)
    by (cbn; lia).
  assert (Hinv : InvertOutput example_output_register = false)
    by reflexivity.
  assert (HV : 0 <= OutputBuffer example_output_register
               < 2 ^ (SizeInOctets example_output_register * 8))
    by (cbn; lia).
  assert (Hf : (bit_count example_output_register < 9)%nat)
    by (unfold bit_count; cbn; lia).
  destruct (Write_then_Read_loopback example_output_register idle_world 9
              HW Hinv HV Hf) as [driven [Hwrite [_ Hread]]].
  exists driven. split; [exact Hwrite|].
  apply Hread.
  pose proof Hwrite as Hsame.
  rewrite <- (advance_nil idle_world) in Hsame at 1.
  rewrite Write_cycle_run in Hsame by (cbn; lia || exact Hf).
  injection Hsame as Hsame.
  apply app_inv_tail in Hsame.
  assert (Hd : driven = output_levels example_output_register).
  { assert (Hlv : levels_put 3 (drive_steps example_output_register driven)
                = levels_put 3 (drive_steps example_output_register
                                  (output_levels example_output_register)))
      by (now rewrite Hsame).
    change 3 with (DataOutGPIO example_output_register) in Hlv.
    rewrite !levels_put_drive_steps in Hlv by (cbn; lia).
    exact Hlv. }
  subst driven. reflexivity.
Defined.

(** Every transfer on a register within the width limit returns. *)
Lemma transfers_return r w fuel :
  SizeInOctets r * 8 <= 255 -> (bit_count r < fuel)%nat ->
  (exists w', ShiftRegisterWrite fuel (r, w) = Some (tt, (r, w')))
  /\ (forall FillValue, exists w',
        ShiftRegisterFill fuel FillValue (r, w) = Some (tt, (r, w')))
  /\ (exists v w',
        ShiftRegisterRead fuel (r, w) = Some (tt, (with_InputBuffer v r, w')))
  /\ (exists v w',
        ShiftRegisterReadWrite fuel (r, w) =
        Some (tt, (with_InputBuffer v r, w'))).
Proof.
  intros Hb Hfuel. rewrite <- (advance_nil w). repeat split.
  - eexists. now apply Write_run.
  - intros FillValue. eexists. now apply Fill_run.
  - do 2 eexists. now apply Read_run.
  - do 2 eexists. now apply ReadWrite_run.
Qed.

Lemma Update_returns r w fuel :
  SizeInOctets r <= MAX_SIZEINOCTETS -> (32 < fuel)%nat ->
  exists s, ShiftRegisterUpdate fuel (r, w) = Some (tt, s).
Proof.
  intros HW Hfuel. pose proof (bit_count_within_width r HW) as Hn.
  rewrite <- (advance_nil w), Update_run by (assumption || lia).
  destruct (transfer_cycle r w) as [[r' cycle] k]. now eexists.
Qed.

(** C6: [ShiftRegisterCreate] returns NULL exactly when the requested
    width exceeds 4 octets (and then without touching a pin); for every
    width up to 4, so for 1, 2, 3 and 4, it returns a struct, and it
    returns NULL for 5.  No other function has a failure to report: on a
    register within the limit every transfer returns, and its result type
    is void. *)
Theorem Create_fails_iff_too_wide
    (fuel : nat) (mode clock data_in data_out latch initial width : Z)
    (w : World) :
  (32 < fuel)%nat ->
  ((exists w', ShiftRegisterCreate fuel mode clock data_in data_out latch
                 initial width w = Some (None, w'))
   <-> MAX_SIZEINOCTETS < width)
  /\ ((exists r w', ShiftRegisterCreate fuel mode clock data_in data_out latch
                      initial width w = Some (Some r, w'))
      <-> width <= MAX_SIZEINOCTETS)
  /\ (MAX_SIZEINOCTETS < width ->
      ShiftRegisterCreate fuel mode clock data_in data_out latch
        initial width w = Some (None, w))
  /\ (forall r : ShiftRegister, SizeInOctets r <= MAX_SIZEINOCTETS ->
      (exists s, ShiftRegisterUpdate fuel (r, w) = Some (tt, s))
      /\ (exists s, ShiftRegisterWrite fuel (r, w) = Some (tt, s))
      /\ (exists s, ShiftRegisterRead fuel (r, w) = Some (tt, s))
      /\ (exists s, ShiftRegisterReadWrite fuel (r, w) = Some (tt, s))
      /\ (forall v, exists s, ShiftRegisterFill fuel v (r, w) = Some (tt, s))).
Proof.
  intros Hfuel.
  assert (Hok : width <= MAX_SIZEINOCTETS ->
    exists r w', ShiftRegisterCreate fuel mode clock data_in data_out latch
                   initial width w = Some (Some r, w')).
  { intros HW. rewrite Create_run by (unfold MAX_SIZEINOCTETS in HW; lia || assumption).
    destruct (transfer_cycle _ w) as [[r cycle] k]. now do 2 eexists. }
  split; [|split; [|split]].
  - split.
    + intros [w' Hnull].
      destruct (Z_lt_le_dec MAX_SIZEINOCTETS width) as [Hgt|Hle]; [exact Hgt|].
      destruct (Hok Hle) as [r [w'' Hsome]]. congruence.
    + intros Hgt. exists w. now apply Create_null.
  - split.
    + intros [r [w' Hsome]].
      destruct (Z_lt_le_dec MAX_SIZEINOCTETS width) as [Hgt|Hle]; [|exact Hle].
      rewrite Create_null in Hsome by assumption. discriminate.
    + exact Hok.
  - apply Create_null.
  - intros r HW.
    pose proof (bit_count_within_width r HW) as Hn.
    assert (Hb : SizeInOctets r * 8 <= 255)
      by (unfold MAX_SIZEINOCTETS in HW; lia).
    assert (Hf : (bit_count r < fuel)%nat) by lia.
    destruct (transfers_return r w fuel Hb Hf)
      as [[w1 H1] [H2 [[v3 [w3 H3]] [v4 [w4 H4]]]]].
    split; [now apply Update_returns|].
    split; [eexists; exact H1|]. split; [eexists; exact H3|].
    split; [eexists; exact H4|].
    intros v. destruct (H2 v) as [w2 Hv]. eexists; exact Hv.
Qed.

Lemma Create_fails_iff_too_wide_witness :
  ShiftRegisterCreate 33 SHIFTREGISTER_OUTPUT 2 0 3 4 128 5 idle_world =
    Some (None, idle_world)
  /\ exists r w',
       ShiftRegisterCreate 33 SHIFTREGISTER_OUTPUT 2 0 3 4 128 4 idle_world =
       Some (Some r, w').
Proof.
  assert (Hf : (32 < 33)%nat) by lia.
  split.
  - apply (Create_fails_iff_too_wide 33 SHIFTREGISTER_OUTPUT 2 0 3 4 128 5
             idle_world Hf).
    unfold MAX_SIZEINOCTETS. lia.
  - apply (Create_fails_iff_too_wide 33 SHIFTREGISTER_OUTPUT 2 0 3 4 128 4
             idle_world Hf).
    unfold MAX_SIZEINOCTETS. lia.
Defined.

Lemma pin_after_app p s0 t1 t2 :
  pin_after p s0 (t1 ++ t2) = pin_after p (pin_after p s0 t1) t2.
Proof. unfold pin_after. apply fold_left_app. Qed.

Ltac pin_cases :=
  repeat match goal with
         | |- context [?a =? ?b] => destruct (Z.eqb_spec a b)
         | H : context [?a =? ?b] |- _ => destruct (Z.eqb_spec a b)
         end;
  cbn [pin_dir pin_out app pins_initialised In] in *;
  subst; try congruence; try tauto; try reflexivity.

(** After the set-up the latch pin is an output at low level, whatever it
    was before. *)
Lemma setup_leaves_latch_low clock data_in data_out latch s0 :
  pin_after latch s0 (setup_events clock data_in data_out latch) = driven_low.
Proof.
  unfold pin_after, setup_events, driven_low.
  destruct (data_in =? 0), (data_out =? 0);
    cbn [app fold_left pin_step]; pin_cases.
Qed.

Lemma setup_leaves_data_out_low clock data_in data_out latch s0 :
  data_out <> 0 ->
  pin_after data_out s0 (setup_events clock data_in data_out latch) =
  driven_low.
Proof.
  intros Hout. unfold pin_after, setup_events, driven_low.
  destruct (Z.eqb_spec data_out 0); [contradiction|].
  destruct (data_in =? 0); cbn [app fold_left pin_step]; pin_cases.
Qed.

(** The clock pin gets no [gpio_put] in the set-up: it is low because
    [gpio_init] cleared its output value before it was made an output. *)
Lemma setup_leaves_clock_low clock data_in data_out latch s0 :
  data_in = 0 \/ clock <> data_in ->
  pin_after clock s0 (setup_events clock data_in data_out latch) = driven_low.
Proof.
  intros Hin. unfold pin_after, setup_events, driven_low.
  destruct (Z.eqb_spec data_in 0), (data_out =? 0);
    cbn [app fold_left pin_step]; pin_cases;
    destruct Hin; congruence.
Qed.

Lemma setup_leaves_data_in_input clock data_in data_out latch s0 :
  data_in <> 0 -> data_in <> data_out -> data_in <> latch ->
  pin_after data_in s0 (setup_events clock data_in data_out latch) =
  mkPin GPIO_IN false.
Proof.
  intros Hin Hout Hlatch. unfold pin_after, setup_events.
  destruct (Z.eqb_spec data_in 0); [contradiction|].
  destruct (data_out =? 0); cbn [app fold_left pin_step]; pin_cases.
Qed.

(** Whatever the pin assignment, a pin the set-up initialised ends it
    either as an input or as an output at low level, and in a state that
    owes nothing to the state before. *)
Lemma setup_fixes_initialised_pins clock data_in data_out latch p s0 :
  In p (pins_initialised (setup_events clock data_in data_out latch)) ->
  (pin_dir (pin_after p s0 (setup_events clock data_in data_out latch)) =
     GPIO_OUT ->
   pin_out (pin_after p s0 (setup_events clock data_in data_out latch)) =
     false)
  /\ forall s1,
       pin_after p s0 (setup_events clock data_in data_out latch) =
       pin_after p s1 (setup_events clock data_in data_out latch).
Proof.
  unfold pin_after, setup_events.
  destruct (data_in =? 0), (data_out =? 0);
    cbn [app fold_left pin_step pins_initialised In]; intros Hp;
    (split; [|intros s1]); pin_cases;
    repeat match goal with H : _ \/ _ |- _ => destruct H end;
    congruence.
Qed.

(** C7: for every width up to 4 octets, [ShiftRegisterCreate], before it
    returns, initialises the clock and latch pins and every non-zero data
    pin and sets their directions (data-in as input; data-out, clock and
    latch as outputs); leaves every output pin at low level, the clock pin
    included (with the SDK's [gpio_init] clearing the output value, and
    the clock pin not doubling as the data-in pin); fills the struct with
    the given mode, pins, width and initial value, the two default delays
    of 5, [InputBuffer] 0 and [InvertOutput] false; and then runs exactly
    one transfer cycle of the mode (one call of [ShiftRegisterUpdate]) and
    returns the struct that cycle leaves.  The state in which the pins are
    handed to the caller owes nothing to their state before the call. *)
Theorem Create_sets_up_then_runs_one_cycle
    (fuel : nat) (mode clock data_in data_out latch initial width : Z)
    (w : World) :
  width <= MAX_SIZEINOCTETS -> (32 < fuel)%nat ->
  ShiftRegisterCreate fuel mode clock data_in data_out latch initial width w =
    match transfer_cycle
            (fresh_register mode clock data_in data_out latch initial width) w
    with
    | (r, cycle, k) =>
        Some (Some r,
              advance (setup_events clock data_in data_out latch ++ cycle) k w)
    end
  /\ ShiftRegisterCreate fuel mode clock data_in data_out latch initial width w
     = match ShiftRegisterUpdate fuel
               (fresh_register mode clock data_in data_out latch initial width,
                advance (setup_events clock data_in data_out latch) 0 w) with
       | Some (_, (r, w')) => Some (Some r, w')
       | None => None
       end
  /\ In (gpio_set_dir_ev clock GPIO_OUT)
       (setup_events clock data_in data_out latch)
  /\ In (gpio_set_dir_ev latch GPIO_OUT)
       (setup_events clock data_in data_out latch)
  /\ In (gpio_put_ev latch false) (setup_events clock data_in data_out latch)
  /\ (data_in <> 0 ->
      In (gpio_set_dir_ev data_in GPIO_IN)
        (setup_events clock data_in data_out latch))
  /\ (data_out <> 0 ->
      In (gpio_set_dir_ev data_out GPIO_OUT)
        (setup_events clock data_in data_out latch)
      /\ In (gpio_put_ev data_out false)
           (setup_events clock data_in data_out latch))
  /\ (forall s0 : PinState,
        pin_after latch s0 (setup_events clock data_in data_out latch) =
        driven_low)
  /\ (forall s0 : PinState, data_out <> 0 ->
        pin_after data_out s0 (setup_events clock data_in data_out latch) =
        driven_low)
  /\ (forall s0 : PinState, data_in = 0 \/ clock <> data_in ->
        pin_after clock s0 (setup_events clock data_in data_out latch) =
        driven_low)
  /\ (forall s0 : PinState,
        data_in <> 0 -> data_in <> data_out -> data_in <> latch ->
        pin_after data_in s0 (setup_events clock data_in data_out latch) =
        mkPin GPIO_IN false)
  /\ (forall (p : Z) (s0 : PinState),
        In p (pins_initialised (setup_events clock data_in data_out latch)) ->
        pin_dir (pin_after p s0 (setup_events clock data_in data_out latch)) =
          GPIO_OUT ->
        pin_out (pin_after p s0 (setup_events clock data_in data_out latch)) =
          false)
  /\ (forall r cycle k,
        transfer_cycle
          (fresh_register mode clock data_in data_out latch initial width) w
          = (r, cycle, k) ->
        r = with_InputBuffer (InputBuffer r)
              (fresh_register mode clock data_in data_out latch initial width)
        /\ forall (p : Z) (s0 s1 : PinState),
             In p (pins_initialised
                     (setup_events clock data_in data_out latch)) ->
             pin_after p s0
               (setup_events clock data_in data_out latch ++ cycle) =
             pin_after p s1
               (setup_events clock data_in data_out latch ++ cycle)).
Proof.
  intros HW Hfuel.
  split; [apply Create_run; unfold MAX_SIZEINOCTETS in HW; lia || assumption|].
  split; [now apply Create_setup|].
  split; [unfold setup_events; apply in_or_app; left; cbn; tauto|].
  split; [unfold setup_events; do 3 (apply in_or_app; right); cbn; tauto|].
  split; [unfold setup_events; do 3 (apply in_or_app; right); cbn; tauto|].
  split.
  { intros Hin. unfold setup_events.
    apply in_or_app; right. apply in_or_app; left.
    destruct (Z.eqb_spec data_in 0); [contradiction | cbn; tauto]. }
  split.
  { intros Hout. unfold setup_events.
    split; do 2 (apply in_or_app; right); apply in_or_app; left;
      (destruct (Z.eqb_spec data_out 0); [contradiction | cbn; tauto]). }
  split; [intros s0; apply setup_leaves_latch_low|].
  split; [intros s0; apply setup_leaves_data_out_low|].
  split; [intros s0; apply setup_leaves_clock_low|].
  split; [intros s0; apply setup_leaves_data_in_input|].
  split.
  { intros p s0 Hp.
    exact (proj1 (setup_fixes_initialised_pins clock data_in data_out latch
                    p s0 Hp)). }
  intros r cycle k Hcycle. split.
  - unfold transfer_cycle in Hcycle.
    destruct (_ =? SHIFTREGISTER_INPUT);
      [injection Hcycle as <- _ _; reflexivity|].
    destruct (_ =? SHIFTREGISTER_OUTPUT);
      [injection Hcycle as <- _ _; reflexivity|].
    destruct (_ =? SHIFTREGISTER_HYBRID);
      injection Hcycle as <- _ _; reflexivity.
  - intros p s0 s1 Hp. rewrite !pin_after_app. f_equal.
    exact (proj2 (setup_fixes_initialised_pins clock data_in data_out latch
                    p s0 Hp) s1).
Qed.

Lemma Create_sets_up_then_runs_one_cycle_witness :
  ShiftRegisterCreate 33 SHIFTREGISTER_OUTPUT 2 0 3 4 128 1 idle_world =
    Some (Some (fresh_register SHIFTREGISTER_OUTPUT 2 0 3 4 128 1),
          advance
            ([ gpio_init_ev 2; gpio_set_dir_ev 2 GPIO_OUT;
               gpio_init_ev 3; gpio_set_dir_ev 3 GPIO_OUT;
               gpio_put_ev 3 false;
               gpio_init_ev 4; gpio_set_dir_ev 4 GPIO_OUT;
               gpio_put_ev 4 false ]
             ++ write_cycle (fresh_register SHIFTREGISTER_OUTPUT 2 0 3 4 128 1))
            0 idle_world)
  /\ pin_after 2 (mkPin GPIO_IN true) (setup_events 2 0 3 4) = driven_low
  /\ pin_after 3 (mkPin GPIO_IN true) (setup_events 2 0 3 4) = driven_low
  /\ pin_after 4 (mkPin GPIO_IN true) (setup_events 2 0 3 4) = driven_low.
Proof.
  assert (HW : 1 <= MAX_SIZEINOCTETS) by (unfold MAX_SIZEINOCTETS; lia).
  assert (Hf : (32 < 33)%nat) by lia.
  assert (Hout : 3 <> 0) by lia.
  assert (Hclk : 0 = 0 \/ 2 <> 0) by (left; reflexivity).
  destruct (Create_sets_up_then_runs_one_cycle 33 SHIFTREGISTER_OUTPUT
              2 0 3 4 128 1 idle_world HW Hf)
    as [Hrun [_ [_ [_ [_ [_ [_ [Hlatch [Hdata [Hclock _]]]]]]]]]].
  split; [exact Hrun|].
  split; [exact (Hclock (mkPin GPIO_IN true) Hclk)|].
  split; [exact (Hdata (mkPin GPIO_IN true) Hout)|].
  exact (Hlatch (mkPin GPIO_IN true)).
Defined.

(** C8: [GC8BitInit] creates one register in input mode, one octet wide,
    without a data-out pin, and returns it with both delays set to 1;
    [GC8BitPoll] on it runs exactly one read cycle (eight samples) and
    returns the low eight bits of the [InputBuffer] that cycle leaves. *)
Theorem GC8Bit_init_and_poll
    (fuel : nat) (clock data_in latch : Z) (w : World) :
  (8 < fuel)%nat ->
  exists (r : ShiftRegister) (w' : World),
    GC8BitInit fuel clock data_in latch w = Some (r, w')
    /\ r = with_delays GC8BIT_DELAY GC8BIT_DELAY
             (with_InputBuffer (msb_first_value (next_samples w 8))
                (fresh_register SHIFTREGISTER_INPUT clock data_in 0 latch 0 1))
    /\ w' = advance
              (setup_events clock data_in 0 latch
               ++ read_cycle
                    (fresh_register SHIFTREGISTER_INPUT clock data_in 0 latch
                       0 1)
                    (next_samples w 8)) 8 w
    /\ Type_ r = SHIFTREGISTER_INPUT /\ SizeInOctets r = 1
    /\ ClockDelayUS r = 1 /\ LatchDelayUS r = 1
    /\ forall w1 : World,
         exists r1 : ShiftRegister,
           GC8BitPoll fuel (r, w1) =
             Some (InputBuffer r1 mod 2 ^ 8,
                   (r1, advance (read_cycle r (next_samples w1 8)) 8 w1))
           /\ r1 = with_InputBuffer (msb_first_value (next_samples w1 8)) r.
Proof.
  intros Hfuel. do 2 eexists. split.
  - unfold GC8BitInit.
    rewrite Create_run; [| unfold MAX_SIZEINOCTETS; lia | cbn; lia].
    unfold transfer_cycle. cbn [fresh_register Type_ Z.eqb SHIFTREGISTER_INPUT].
    reflexivity.
  - repeat split.
    intros w1. eexists. split; [|reflexivity].
    unfold GC8BitPoll. unfold bind at 1.
    rewrite <- (advance_nil w1) at 1.
    rewrite Update_run; [| cbn; unfold MAX_SIZEINOCTETS; lia | exact Hfuel].
    reflexivity.
Qed.

Lemma GC8Bit_init_and_poll_witness :
  exists (r : ShiftRegister) (w' : World),
    GC8BitInit 9 2 5 4 idle_world = Some (r, w')
    /\ Type_ r = SHIFTREGISTER_INPUT /\ SizeInOctets r = 1
    /\ ClockDelayUS r = 1 /\ LatchDelayUS r = 1.
Proof.
  assert (Hf : (8 < 9)%nat) by lia.
  destruct (GC8Bit_init_and_poll 9 2 5 4 idle_world Hf)
    as [r [w' [Hinit [_ [_ [Hty [Hsz [Hcd [Hld _]]]]]]]]].
  exists r, w'. repeat split; assumption.
Defined.

(** C9: whatever the register, [ShiftRegisterWrite] and
    [ShiftRegisterFill] return with the struct as it was, [InputBuffer] and
    [OutputBuffer] included; [ShiftRegisterRead] and
    [ShiftRegisterReadWrite] return with a struct that differs from the
    old one in [InputBuffer] at most.  And they do return, whenever the
    loop bound [SizeInOctets*8] fits the 8-bit counter and the fuel covers
    the iterations. *)
Theorem transfers_frame (r : ShiftRegister) (w : World) (fuel : nat) :
  (forall u r' w',
     ShiftRegisterWrite fuel (r, w) = Some (u, (r', w')) -> r' = r)
  /\ (forall FillValue u r' w',
        ShiftRegisterFill fuel FillValue (r, w) = Some (u, (r', w')) ->
        r' = r)
  /\ (forall u r' w',
        ShiftRegisterRead fuel (r, w) = Some (u, (r', w')) ->
        r' = with_InputBuffer (InputBuffer r') r)
  /\ (forall u r' w',
        ShiftRegisterReadWrite fuel (r, w) = Some (u, (r', w')) ->
        r' = with_InputBuffer (InputBuffer r') r)
  /\ (SizeInOctets r * 8 <= 255 -> (bit_count r < fuel)%nat ->
      (exists w', ShiftRegisterWrite fuel (r, w) = Some (tt, (r, w')))
      /\ (forall FillValue, exists w',
            ShiftRegisterFill fuel FillValue (r, w) = Some (tt, (r, w')))
      /\ (exists v w',
            ShiftRegisterRead fuel (r, w) =
            Some (tt, (with_InputBuffer v r, w')))
      /\ (exists v w',
            ShiftRegisterReadWrite fuel (r, w) =
            Some (tt, (with_InputBuffer v r, w')))).
Proof.
  split; [|split; [|split; [|split]]].
  - intros u r' w' H.
    exact (Write_preserves (fun x => x = r) fuel (r, w) u (r', w') eq_refl H).
  - intros FillValue u r' w' H.
    exact (Fill_preserves (fun x => x = r) fuel FillValue (r, w) u (r', w')
             eq_refl H).
  - intros u r' w' H.
    exact (Read_same_but r fuel (r, w) u (r', w')
             (same_but_InputBuffer_refl r) H).
  - intros u r' w' H.
    exact (ReadWrite_same_but r fuel (r, w) u (r', w')
             (same_but_InputBuffer_refl r) H).
  - apply transfers_return.
Qed.

Lemma transfers_frame_witness :
  (exists w', ShiftRegisterWrite 9 (example_hybrid_register, idle_world) =
              Some (tt, (example_hybrid_register, w')))
  /\ (exists v w',
        ShiftRegisterReadWrite 9 (example_hybrid_register, idle_world) =
        Some (tt, (with_InputBuffer v example_hybrid_register, w'))).
Proof.
  assert (Hb : SizeInOctets example_hybrid_register * 8 <= 255)
    by (cbn; lia).
  assert (Hf : (bit_count example_hybrid_register < 9)%nat)
    by (unfold bit_count; cbn; lia).
  destruct (transfers_frame example_hybrid_register idle_world 9)
    as [_ [_ [_ [_ Hret]]]].
  destruct (Hret Hb Hf) as [Hwrite [_ [_ Hhybrid]]].
  split; assumption.
Defined.

(** C10: for a mode other than 0, 1 and 2, [ShiftRegisterUpdate] returns
    at once with the struct and the world as they were: no SDK call, no
    sample taken, whatever the fuel.  So [ShiftRegisterCreate] with such a
    mode and a width up to 4 returns the freshly filled struct, and the
    only events are those of the pin set-up. *)
Theorem Update_unknown_mode_is_noop (mode : Z) :
  mode <> SHIFTREGISTER_INPUT -> mode <> SHIFTREGISTER_OUTPUT ->
  mode <> SHIFTREGISTER_HYBRID ->
  (forall (r : ShiftRegister) (w : World) (fuel : nat),
     Type_ r = mode -> ShiftRegisterUpdate fuel (r, w) = Some (tt, (r, w)))
  /\ (forall (fuel : nat) (clock data_in data_out latch initial width : Z)
        (w : World),
        width <= MAX_SIZEINOCTETS ->
        ShiftRegisterCreate fuel mode clock data_in data_out latch initial
          width w =
        Some (Some (fresh_register mode clock data_in data_out latch initial
                      width),
              advance (setup_events clock data_in data_out latch) 0 w)).
Proof.
  intros H0 H1 H2. split.
  - intros r w fuel Hmode. subst mode. now apply Update_unknown_mode.
  - intros fuel clock data_in data_out latch initial width w HW.
    rewrite Create_setup by assumption.
    now rewrite Update_unknown_mode.
Qed.

Lemma Update_unknown_mode_is_noop_witness :
  ShiftRegisterUpdate 0
    (fresh_register 7 2 5 3 4 128 1, idle_world) =
    Some (tt, (fresh_register 7 2 5 3 4 128 1, idle_world))
  /\ ShiftRegisterCreate 0 7 2 5 3 4 128 1 idle_world =
     Some (Some (fresh_register 7 2 5 3 4 128 1),
           advance
             [ gpio_init_ev 2; gpio_set_dir_ev 2 GPIO_OUT;
               gpio_init_ev 5; gpio_set_dir_ev 5 GPIO_IN;
               gpio_init_ev 3; gpio_set_dir_ev 3 GPIO_OUT;
               gpio_put_ev 3 false;
               gpio_init_ev 4; gpio_set_dir_ev 4 GPIO_OUT;
               gpio_put_ev 4 false ]
             0 idle_world).
Proof.
  assert (H0 : 7 <> SHIFTREGISTER_INPUT) by (unfold SHIFTREGISTER_INPUT; lia).
  assert (H1 : 7 <> SHIFTREGISTER_OUTPUT)
    by (unfold SHIFTREGISTER_OUTPUT; lia).
  assert (H2 : 7 <> SHIFTREGISTER_HYBRID)
    by (unfold SHIFTREGISTER_HYBRID; lia).
  destruct (Update_unknown_mode_is_noop 7 H0 H1 H2) as [Hupd Hcreate].
  split.
  - apply Hupd. reflexivity.
  - apply (Hcreate 0%nat 2 5 3 4 128 1 idle_world).
    unfold MAX_SIZEINOCTETS. lia.
Defined.

(** * Beyond the supported width *)

(** A loop whose bound stays above 255 never leaves: the 8-bit counter
    cannot reach it. *)
Lemma for_uint8_never_returns {L : Type} (P : Machine -> Prop)
    (bound : M Z) (body : L -> M L) :
  (forall s b s', P s -> bound s = Some (b, s') -> 255 < b /\ P s') ->
  (forall l, preserves P (body l)) ->
  forall fuel c l s, 0 <= c <= 255 -> P s ->
  for_uint8 fuel bound body c l s = None.
Proof.
  intros Hbound Hbody fuel.
  induction fuel as [|fuel IH]; intros c l s Hc HP; [reflexivity|].
  simpl. unfold bind at 1.
  destruct (bound s) as [[b s1]|] eqn:Eb; [|reflexivity].
  destruct (Hbound s b s1 HP Eb) as [Hbig HP1].
  destruct (Z.ltb_spec c b); [|lia].
  unfold bind.
  destruct (body l s1) as [[l' s2]|] eqn:El; [|reflexivity].
  apply IH.
  - unfold uint8. pose proof (Z.mod_pos_bound (c + 1) (2 ^ 8)). lia.
  - exact (Hbody l s1 l' s2 HP1 El).
Qed.

(** On a struct whose [SizeInOctets] was set to 32 or more (the field is
    assignable; [ShiftRegisterCreate] never produces one),
    [ShiftRegisterWrite] does not return, whatever the fuel. *)
Theorem Write_never_returns_beyond_31_octets
    (r : ShiftRegister) (w : World) (fuel : nat) :
  32 <= SizeInOctets r -> ShiftRegisterWrite fuel (r, w) = None.
Proof.
  intros HW. unfold ShiftRegisterWrite.
  unfold bind at 1. rewrite InitialWriteMask_run.
  unfold bind at 1.
  rewrite (for_uint8_never_returns (fun s => fst s = r)); try reflexivity.
  - intros s b s' Hs Hb. unfold SizeInBits, bind, field, ret in Hb.
    injection Hb as Hb Hs'. subst b s'. split; [rewrite Hs; lia | exact Hs].
  - intros l. apply preserves_bind;
      [apply (PutMaskedBit_preserves (fun x => x = r)) | intros _].
    apply preserves_bind;
      [apply (PulseClock_preserves (fun x => x = r)) | intros _].
    apply preserves_ret.
  - lia.
Qed.

Lemma Write_never_returns_beyond_31_octets_witness :
  ShiftRegisterWrite 1000
    (mkShiftRegister SHIFTREGISTER_OUTPUT 2 0 3 4 32 5 5 0 128 false,
     idle_world) = None.
Proof.
  apply Write_never_returns_beyond_31_octets. cbn. lia.
Defined.

(** X2: with [SizeInOctets] at 32 or more, none of the other transfers
    returns either: [ShiftRegisterRead], [ShiftRegisterReadWrite] and
    [ShiftRegisterFill] all spin in their first loop, whatever the fuel. *)
Theorem transfers_never_return_beyond_31_octets
    (r : ShiftRegister) (w : World) (fuel : nat) :
  32 <= SizeInOctets r ->
  ShiftRegisterRead fuel (r, w) = None
  /\ ShiftRegisterReadWrite fuel (r, w) = None
  /\ (forall FillValue, ShiftRegisterFill fuel FillValue (r, w) = None).
Proof.
  intros HW.
  assert (Hbound : forall s b s',
    same_but_InputBuffer r (fst s) -> SizeInBits s = Some (b, s') ->
    255 < b /\ same_but_InputBuffer r (fst s')).
  { intros s b s' Hs Hb. unfold SizeInBits, bind, field, ret in Hb.
    injection Hb as Hb Hs'. subst b s'. split; [|exact Hs].
    rewrite Hs. cbn [SizeInOctets with_InputBuffer]. lia. }
  split; [|split].
  - unfold ShiftRegisterRead.
    unfold bind at 1, set_InputBuffer at 1. cbn [fst snd].
    unfold bind at 1, field at 1. cbn [fst snd].
    unfold bind at 1, gpio_put at 1. cbn [fst snd].
    unfold bind at 1.
    rewrite (for_uint8_never_returns
               (fun s => same_but_InputBuffer r (fst s))); try reflexivity.
    + exact Hbound.
    + intros l. apply preserves_bind; [apply GetBit_same_but | intros _].
      apply (PulseClock_preserves (same_but_InputBuffer r)).
    + lia.
  - unfold ShiftRegisterReadWrite.
    unfold bind at 1. rewrite InitialWriteMask_run.
    unfold bind at 1.
    rewrite (for_uint8_never_returns
               (fun s => same_but_InputBuffer r (fst s))); try reflexivity.
    + exact Hbound.
    + intros l.
      apply preserves_bind;
        [apply (PutMaskedBit_preserves (same_but_InputBuffer r)) | intros _].
      apply preserves_bind;
        [apply (PulseClock_preserves (same_but_InputBuffer r)) | intros _].
      apply preserves_ret.
    + lia.
    + apply same_but_InputBuffer_refl.
  - intros FillValue. unfold ShiftRegisterFill.
    unfold bind at 1.
    rewrite (for_uint8_never_returns
               (fun s => same_but_InputBuffer r (fst s))); try reflexivity.
    + exact Hbound.
    + intros l.
      apply preserves_bind;
        [apply (preserves_field (same_but_InputBuffer r)) | intros pin].
      apply preserves_bind;
        [apply (preserves_gpio_put (same_but_InputBuffer r)) | intros _].
      apply (PulseClock_preserves (same_but_InputBuffer r)).
    + lia.
    + apply same_but_InputBuffer_refl.
Qed.

Lemma transfers_never_return_beyond_31_octets_witness :
  ShiftRegisterRead 1000
    (mkShiftRegister SHIFTREGISTER_INPUT 2 5 0 4 32 5 5 0 0 false,
     idle_world) = None.
Proof.
  assert (HW : 32 <= SizeInOctets
                 (mkShiftRegister SHIFTREGISTER_INPUT 2 5 0 4 32 5 5 0 0 false))
    by (cbn; lia).
  exact (proj1 (transfers_never_return_beyond_31_octets _ idle_world 1000 HW)).
Defined.

Lemma msb_first_bits_mod n v :
  msb_first_bits n (v mod 2 ^ Z.of_nat n) = msb_first_bits n v.
Proof.
  unfold msb_first_bits. apply map_ext_in. intros i Hi. apply in_seq in Hi.
  apply Z.mod_pow2_bits_low. lia.
Qed.

Lemma bit_count_Z r :
  0 <= SizeInOctets r -> Z.of_nat (bit_count r) = SizeInOctets r * 8.
Proof. unfold bit_count. lia. Qed.

(** X3: on every register whose loop terminates (up to 31 octets),
    [ShiftRegisterFill] drives one and the same level, high exactly when
    [FillValue] is non-zero, on all [SizeInOctets*8] clocked positions and
    then pulses the latch once.  Neither [InvertOutput] nor [OutputBuffer]
    has any influence on the events, and the struct is returned as it
    was. *)
Theorem Fill_drives_the_raw_constant
    (r : ShiftRegister) (w : World) (fuel : nat) (FillValue : Z) :
  SizeInOctets r * 8 <= 255 -> (bit_count r < fuel)%nat ->
  forall (inv : bool) (out : Z),
    ShiftRegisterFill fuel FillValue
      (with_InvertOutput inv (with_OutputBuffer out r), w) =
    Some (tt,
          (with_InvertOutput inv (with_OutputBuffer out r),
           advance (drive_steps r
                      (repeat (negb (FillValue =? 0)) (bit_count r))
                    ++ latch_pulse r) 0 w)).
Proof.
  intros Hb Hfuel inv out.
  rewrite <- (advance_nil w) at 1.
  rewrite (Fill_run (with_InvertOutput inv (with_OutputBuffer out r)))
    by assumption.
  destruct (FillValue =? 0); reflexivity.
Qed.

Lemma Fill_drives_the_raw_constant_witness :
  ShiftRegisterFill 9 2 (example_inverting_register, idle_world) =
  Some (tt,
        (example_inverting_register,
         advance (drive_steps example_inverting_register (repeat true 8)
                  ++ latch_pulse example_inverting_register) 0 idle_world)).
Proof.
  assert (Hb : SizeInOctets example_inverting_register * 8 <= 255)
    by (cbn; lia).
  assert (Hf : (bit_count example_inverting_register < 9)%nat)
    by (unfold bit_count; cbn; lia).
  exact (Fill_drives_the_raw_constant example_inverting_register idle_world
           9 2 Hb Hf true 128).
Defined.

(** X4: [ShiftRegisterWrite] looks at the low [SizeInOctets*8] bits of
    [OutputBuffer] only.  Two buffer values that agree modulo
    [2^(SizeInOctets*8)] give the same events: whatever a caller stores
    above the register's width is never driven. *)
Theorem Write_ignores_bits_above_width
    (r : ShiftRegister) (w : World) (fuel : nat) (v : Z) :
  1 <= SizeInOctets r <= 4 -> (bit_count r < fuel)%nat ->
  v mod 2 ^ (SizeInOctets r * 8) = OutputBuffer r mod 2 ^ (SizeInOctets r * 8) ->
  exists es : list Event,
    ShiftRegisterWrite fuel (r, w) = Some (tt, (r, advance es 0 w))
    /\ ShiftRegisterWrite fuel (with_OutputBuffer v r, w) =
       Some (tt, (with_OutputBuffer v r, advance es 0 w)).
Proof.
  intros HW Hfuel Hmod. exists (write_cycle r). split.
  - rewrite <- (advance_nil w) at 1.
    now rewrite Write_cycle_run by (assumption || lia).
  - rewrite <- (advance_nil w) at 1.
    rewrite (Write_cycle_run (with_OutputBuffer v r))
      by (assumption || (cbn [SizeInOctets with_OutputBuffer]; lia)).
    assert (Hlev : output_levels (with_OutputBuffer v r) = output_levels r).
    { unfold output_levels.
      change (bit_count (with_OutputBuffer v r)) with (bit_count r).
      change (OutputBuffer (with_OutputBuffer v r)) with v.
      change (InvertOutput (with_OutputBuffer v r)) with (InvertOutput r).
      rewrite <- (msb_first_bits_mod (bit_count r) v),
              <- (msb_first_bits_mod (bit_count r) (OutputBuffer r)).
      rewrite bit_count_Z by lia. now rewrite Hmod. }
    unfold write_cycle. rewrite Hlev. reflexivity.
Qed.

Lemma Write_ignores_bits_above_width_witness :
  exists es : list Event,
    ShiftRegisterWrite 9 (example_output_register, idle_world) =
      Some (tt, (example_output_register, advance es 0 idle_world))
    /\ ShiftRegisterWrite 9
         (with_OutputBuffer (128 + 256 * 77) example_output_register,
          idle_world) =
       Some (tt,
             (with_OutputBuffer (128 + 256 * 77) example_output_register,
              advance es 0 idle_world)).
Proof.
  assert (HW : 1 <= SizeInOctets example_output_register <= 4)
    by (cbn; lia).
  assert (Hf : (bit_count example_output_register < 9)%nat)
    by (unfold bit_count; cbn; lia).
  apply (Write_ignores_bits_above_width example_output_register idle_world
           9 (128 + 256 * 77) HW Hf).
  reflexivity.
Defined.

(** X5: [ShiftRegisterRead] overwrites [InputBuffer]: what was there
    before has no influence on the result, and the value it leaves lies in
    [0, 2^(SizeInOctets*8)), for every width from 0 to 4 octets. *)
Theorem Read_overwrites_InputBuffer
    (r : ShiftRegister) (w : World) (fuel : nat) :
  0 <= SizeInOctets r <= 4 -> (bit_count r < fuel)%nat ->
  exists (v : Z) (w' : World),
    0 <= v < 2 ^ (SizeInOctets r * 8)
    /\ forall old : Z,
         ShiftRegisterRead fuel (with_InputBuffer old r, w) =
         Some (tt, (with_InputBuffer v r, w')).
Proof.
  intros HW Hfuel.
  exists (msb_first_value (next_samples w (bit_count r))).
  exists (advance (read_cycle r (next_samples w (bit_count r)))
            (bit_count r) w).
  split.
  - pose proof (msb_first_value_bound (next_samples w (bit_count r))) as Hb.
    rewrite next_samples_length, bit_count_Z in Hb by lia. exact Hb.
  - intros old. rewrite <- (advance_nil w) at 1.
    rewrite (Read_cycle_run (with_InputBuffer old r))
      by (assumption || (cbn [SizeInOctets with_InputBuffer]; lia)).
    reflexivity.
Qed.

Lemma Read_overwrites_InputBuffer_witness :
  exists (v : Z) (w' : World),
    0 <= v < 2 ^ (SizeInOctets example_input_register * 8)
    /\ forall old : Z,
         ShiftRegisterRead 9
           (with_InputBuffer old example_input_register, idle_world) =
         Some (tt, (with_InputBuffer v example_input_register, w')).
Proof.
  assert (HW : 0 <= SizeInOctets example_input_register <= 4)
    by (cbn; lia).
  assert (Hf : (bit_count example_input_register < 9)%nat)
    by (unfold bit_count; cbn; lia).
  exact (Read_overwrites_InputBuffer example_input_register idle_world 9
           HW Hf).
Defined.

Lemma masked_levels_length r : length (masked_levels r) = bit_count r.
Proof. unfold masked_levels. now rewrite length_map, length_seq. Qed.

Lemma pulse_levels_app a b :
  pulse_levels (a + b) = pulse_levels a ++ pulse_levels b.
Proof. induction a as [|a IH]; [reflexivity|]. simpl. now rewrite IH. Qed.

Lemma levels_put_own_clock_pulse r :
  levels_put (ClockGPIO r) (clock_pulse r) = [true; false].
Proof. unfold clock_pulse. cbn [levels_put]. now rewrite Z.eqb_refl. Qed.

Lemma levels_put_own_latch_pulse r :
  levels_put (LatchGPIO r) (latch_pulse r) = [true; false].
Proof. unfold latch_pulse. cbn [levels_put]. now rewrite Z.eqb_refl. Qed.

Lemma clock_levels_drive_steps r levels :
  ClockGPIO r <> DataOutGPIO r ->
  levels_put (ClockGPIO r) (drive_steps r levels) =
  pulse_levels (length levels).
Proof.
  intros H. induction levels as [|b levels IH]; [reflexivity|].
  unfold drive_steps in *. cbn [flat_map length pulse_levels].
  unfold drive_step at 1. cbn [app levels_put].
  destruct (Z.eqb_spec (DataOutGPIO r) (ClockGPIO r)); [congruence|].
  rewrite levels_put_app, levels_put_own_clock_pulse, IH. reflexivity.
Qed.

Lemma clock_levels_sample_steps r levels :
  levels_put (ClockGPIO r) (sample_steps r levels) =
  pulse_levels (length levels).
Proof.
  induction levels as [|b levels IH]; [reflexivity|].
  unfold sample_steps in *. cbn [flat_map length pulse_levels].
  unfold sample_step at 1. cbn [app levels_put].
  rewrite levels_put_app, levels_put_own_clock_pulse, IH. reflexivity.
Qed.

Lemma levels_put_latch_edges pin r :
  pin <> LatchGPIO r ->
  levels_put pin (latch_raise r) = [] /\ levels_put pin (latch_lower r) = [].
Proof.
  intros H. unfold latch_raise, latch_lower. cbn [levels_put].
  destruct (Z.eqb_spec (LatchGPIO r) pin); [congruence | now split].
Qed.

(** X6: on pins of their own, every transfer gives the clock line exactly
    one high-low pulse per bit ([SizeInOctets*8] pulses; twice that for the
    hybrid transfer) and the latch line exactly one high followed by one
    low.  Both lines therefore end every transfer low. *)
Theorem lines_pulse_and_end_low (r : ShiftRegister) (w : World) (fuel : nat) :
  SizeInOctets r * 8 <= 255 -> (bit_count r < fuel)%nat ->
  ClockGPIO r <> DataOutGPIO r -> ClockGPIO r <> LatchGPIO r ->
  LatchGPIO r <> DataOutGPIO r ->
  (exists es,
     ShiftRegisterWrite fuel (r, w) = Some (tt, (r, advance es 0 w))
     /\ levels_put (ClockGPIO r) es = pulse_levels (bit_count r)
     /\ levels_put (LatchGPIO r) es = [true; false])
  /\ (forall FillValue, exists es,
        ShiftRegisterFill fuel FillValue (r, w) =
        Some (tt, (r, advance es 0 w))
        /\ levels_put (ClockGPIO r) es = pulse_levels (bit_count r)
        /\ levels_put (LatchGPIO r) es = [true; false])
  /\ (exists es v,
        ShiftRegisterRead fuel (r, w) =
        Some (tt, (with_InputBuffer v r, advance es (bit_count r) w))
        /\ levels_put (ClockGPIO r) es = pulse_levels (bit_count r)
        /\ levels_put (LatchGPIO r) es = [true; false])
  /\ (exists es v,
        ShiftRegisterReadWrite fuel (r, w) =
        Some (tt, (with_InputBuffer v r, advance es (bit_count r) w))
        /\ levels_put (ClockGPIO r) es =
           pulse_levels (bit_count r + bit_count r)
        /\ levels_put (LatchGPIO r) es = [true; false]).
Proof.
  intros Hb Hfuel Hcd Hcl Hld.
  assert (Hlc : LatchGPIO r <> ClockGPIO r) by congruence.
  destruct (levels_put_latch_edges (ClockGPIO r) r Hcl) as [Hup Hdown].
  split; [|split; [|split]].
  - eexists. split; [|split].
    + rewrite <- (advance_nil w) at 1. now apply Write_run.
    + cbn [app]. rewrite levels_put_app, clock_levels_drive_steps by assumption.
      rewrite levels_put_latch_pulse, masked_levels_length by assumption.
      apply app_nil_r.
    + cbn [app]. rewrite levels_put_app.
      rewrite levels_put_drive_steps_other by assumption.
      apply levels_put_own_latch_pulse.
  - intros FillValue. eexists. split; [|split].
    + rewrite <- (advance_nil w) at 1. now apply Fill_run.
    + cbn [app]. rewrite levels_put_app, clock_levels_drive_steps by assumption.
      rewrite levels_put_latch_pulse, repeat_length by assumption.
      apply app_nil_r.
    + cbn [app]. rewrite levels_put_app.
      rewrite levels_put_drive_steps_other by assumption.
      apply levels_put_own_latch_pulse.
  - do 2 eexists. split; [|split].
    + rewrite <- (advance_nil w) at 1. now apply Read_run.
    + cbn [app]. rewrite !levels_put_app, Hup, Hdown.
      rewrite clock_levels_sample_steps, next_samples_length.
      apply app_nil_r.
    + cbn [app]. rewrite !levels_put_app.
      rewrite levels_put_sample_steps by assumption.
      unfold latch_raise, latch_lower. cbn [levels_put app].
      now rewrite Z.eqb_refl.
  - do 2 eexists. split; [|split].
    + rewrite <- (advance_nil w) at 1. now apply ReadWrite_run.
    + cbn [app]. rewrite !levels_put_app, Hup, Hdown.
      rewrite clock_levels_drive_steps by assumption.
      rewrite clock_levels_sample_steps.
      rewrite masked_levels_length, next_samples_length, pulse_levels_app.
      cbn [app]. now rewrite app_nil_r.
    + cbn [app]. rewrite !levels_put_app.
      rewrite levels_put_drive_steps_other by assumption.
      rewrite levels_put_sample_steps by assumption.
      unfold latch_raise, latch_lower. cbn [levels_put app].
      now rewrite Z.eqb_refl.
Qed.

Lemma lines_pulse_and_end_low_witness :
  exists es,
    ShiftRegisterWrite 9 (example_hybrid_register, idle_world) =
      Some (tt, (example_hybrid_register, advance es 0 idle_world))
    /\ levels_put 2 es = pulse_levels 8
    /\ levels_put 4 es = [true; false].
Proof.
  assert (Hb : SizeInOctets example_hybrid_register * 8 <= 255)
    by (cbn; lia).
  assert (Hf : (bit_count example_hybrid_register < 9)%nat)
    by (unfold bit_count; cbn; lia).
  assert (H1 : ClockGPIO example_hybrid_register
               <> DataOutGPIO example_hybrid_register) by (cbn; lia).
  assert (H2 : ClockGPIO example_hybrid_register
               <> LatchGPIO example_hybrid_register) by (cbn; lia).
  assert (H3 : LatchGPIO example_hybrid_register
               <> DataOutGPIO example_hybrid_register) by (cbn; lia).
  exact (proj1 (lines_pulse_and_end_low example_hybrid_register idle_world 9
                  Hb Hf H1 H2 H3)).
Defined.

Lemma slept_app t1 t2 : slept (t1 ++ t2) = slept t1 + slept t2.
Proof.
  induction t1 as [|e t1 IH]; [reflexivity|].
  destruct e; cbn [slept app]; lia.
Qed.

Lemma slept_drive_steps r levels :
  slept (drive_steps r levels) =
  2 * Z.of_nat (length levels) * ClockDelayUS r.
Proof.
  induction levels as [|b levels IH]; [reflexivity|].
  unfold drive_steps in *. cbn [flat_map length].
  unfold drive_step at 1, clock_pulse at 1. cbn [app slept].
  rewrite IH. lia.
Qed.

Lemma slept_sample_steps r levels :
  slept (sample_steps r levels) =
  2 * Z.of_nat (length levels) * ClockDelayUS r.
Proof.
  induction levels as [|b levels IH]; [reflexivity|].
  unfold sample_steps in *. cbn [flat_map length].
  unfold sample_step at 1, clock_pulse at 1. cbn [app slept].
  rewrite IH. lia.
Qed.

(** X7: the time a transfer asks [sleep_us] for.  With [n] the number of
    bits, a write or a fill sleeps [2*n*ClockDelayUS + LatchDelayUS]
    microseconds, a read [2*n*ClockDelayUS] (the latch is held high over
    the whole read without a delay of its own), and a hybrid transfer
    [4*n*ClockDelayUS]; [LatchDelayUS] plays no part in the last two. *)
Theorem transfers_sleep_time (r : ShiftRegister) (w : World) (fuel : nat) :
  SizeInOctets r * 8 <= 255 -> (bit_count r < fuel)%nat ->
  (exists es,
     ShiftRegisterWrite fuel (r, w) = Some (tt, (r, advance es 0 w))
     /\ slept es =
        2 * Z.of_nat (bit_count r) * ClockDelayUS r + LatchDelayUS r)
  /\ (forall FillValue, exists es,
        ShiftRegisterFill fuel FillValue (r, w) =
        Some (tt, (r, advance es 0 w))
        /\ slept es =
           2 * Z.of_nat (bit_count r) * ClockDelayUS r + LatchDelayUS r)
  /\ (exists es v,
        ShiftRegisterRead fuel (r, w) =
        Some (tt, (with_InputBuffer v r, advance es (bit_count r) w))
        /\ slept es = 2 * Z.of_nat (bit_count r) * ClockDelayUS r)
  /\ (exists es v,
        ShiftRegisterReadWrite fuel (r, w) =
        Some (tt, (with_InputBuffer v r, advance es (bit_count r) w))
        /\ slept es = 4 * Z.of_nat (bit_count r) * ClockDelayUS r).
Proof.
  intros Hb Hfuel. split; [|split; [|split]].
  - eexists. split.
    + rewrite <- (advance_nil w) at 1. now apply Write_run.
    + cbn [app]. rewrite slept_app, slept_drive_steps, masked_levels_length.
      unfold latch_pulse. cbn [slept]. lia.
  - intros FillValue. eexists. split.
    + rewrite <- (advance_nil w) at 1. now apply Fill_run.
    + cbn [app]. rewrite slept_app, slept_drive_steps, repeat_length.
      unfold latch_pulse. cbn [slept]. lia.
  - do 2 eexists. split.
    + rewrite <- (advance_nil w) at 1. now apply Read_run.
    + cbn [app]. rewrite !slept_app, slept_sample_steps, next_samples_length.
      unfold latch_raise, latch_lower. cbn [slept]. lia.
  - do 2 eexists. split.
    + rewrite <- (advance_nil w) at 1. now apply ReadWrite_run.
    + cbn [app]. rewrite !slept_app, slept_drive_steps, slept_sample_steps.
      rewrite masked_levels_length, next_samples_length.
      unfold latch_raise, latch_lower. cbn [slept]. lia.
Qed.

Lemma transfers_sleep_time_witness :
  exists es,
    ShiftRegisterWrite 9 (example_output_register, idle_world) =
      Some (tt, (example_output_register, advance es 0 idle_world))
    /\ slept es = 85.
Proof.
  assert (Hb : SizeInOctets example_output_register * 8 <= 255)
    by (cbn; lia).
  assert (Hf : (bit_count example_output_register < 9)%nat)
    by (unfold bit_count; cbn; lia).
  exact (proj1 (transfers_sleep_time example_output_register idle_world 9
                  Hb Hf)).
Defined.

(** X8: a register of width 0 is legal (the width check has no lower
    bound, so [ShiftRegisterCreate] accepts it), and its transfers clock
    no bit at all: a write or fill is just the latch pulse, a read or
    hybrid transfer just raises and lowers the latch, takes no sample and
    leaves [InputBuffer] at 0. *)
Theorem zero_width_transfers (r : ShiftRegister) (w : World) (fuel : nat) :
  SizeInOctets r = 0 -> (0 < fuel)%nat ->
  ShiftRegisterWrite fuel (r, w) =
    Some (tt, (r, advance (latch_pulse r) 0 w))
  /\ (forall FillValue,
        ShiftRegisterFill fuel FillValue (r, w) =
        Some (tt, (r, advance (latch_pulse r) 0 w)))
  /\ ShiftRegisterRead fuel (r, w) =
     Some (tt, (with_InputBuffer 0 r,
                advance (latch_raise r ++ latch_lower r) 0 w))
  /\ ShiftRegisterReadWrite fuel (r, w) =
     Some (tt, (with_InputBuffer 0 r,
                advance (latch_raise r ++ latch_lower r) 0 w))
  /\ (forall mode clock data_in data_out latch initial w0,
        exists r0 w1,
          ShiftRegisterCreate fuel mode clock data_in data_out latch initial
            0 w0 = Some (Some r0, w1)
          /\ SizeInOctets r0 = 0).
Proof.
  intros HW Hfuel.
  assert (Hn : bit_count r = 0%nat) by (unfold bit_count; rewrite HW; reflexivity).
  assert (Hb : SizeInOctets r * 8 <= 255) by lia.
  assert (Hf : (bit_count r < fuel)%nat) by lia.
  split; [|split; [|split; [|split]]].
  - rewrite <- (advance_nil w) at 1. rewrite Write_run by assumption.
    unfold masked_levels. rewrite Hn. reflexivity.
  - intros FillValue. rewrite <- (advance_nil w) at 1.
    rewrite Fill_run by assumption. rewrite Hn. reflexivity.
  - rewrite <- (advance_nil w) at 1. rewrite Read_run by assumption.
    rewrite Hn. reflexivity.
  - rewrite <- (advance_nil w) at 1. rewrite ReadWrite_run by assumption.
    unfold masked_levels. rewrite Hn. reflexivity.
  - intros mode clock data_in data_out latch initial w0.
    rewrite Create_run; [| unfold MAX_SIZEINOCTETS; lia | cbn; lia].
    unfold transfer_cycle.
    destruct (_ =? SHIFTREGISTER_INPUT); [do 2 eexists; split; reflexivity|].
    destruct (_ =? SHIFTREGISTER_OUTPUT); [do 2 eexists; split; reflexivity|].
    destruct (_ =? SHIFTREGISTER_HYBRID); do 2 eexists; split; reflexivity.
Qed.

Lemma zero_width_transfers_witness :
  ShiftRegisterWrite 1
    (mkShiftRegister SHIFTREGISTER_OUTPUT 2 0 3 4 0 5 5 0 128 false,
     idle_world) =
  Some (tt,
        (mkShiftRegister SHIFTREGISTER_OUTPUT 2 0 3 4 0 5 5 0 128 false,
         advance [gpio_put_ev 4 true; sleep_us_ev 5; gpio_put_ev 4 false]
           0 idle_world)).
Proof.
  assert (HW : SizeInOctets
                 (mkShiftRegister SHIFTREGISTER_OUTPUT 2 0 3 4 0 5 5 0 128
                    false) = 0) by reflexivity.
  assert (Hf : (0 < 1)%nat) by lia.
  exact (proj1 (zero_width_transfers _ idle_world 1 HW Hf)).
Defined.

Lemma lnot_mod_pow2 n v :
  0 <= v < 2 ^ n -> Z.lnot v mod 2 ^ n = 2 ^ n - 1 - v.
Proof.
  intros Hv. unfold Z.lnot.
  replace (Z.pred (- v)) with ((2 ^ n - 1 - v) + (-1) * 2 ^ n) by lia.
  rewrite Z.mod_add by lia. apply Z.mod_small. lia.
Qed.

(** X9: the loopback with inversion.  With [InvertOutput] set and an
    [OutputBuffer] value [V] that fits the width, feeding the levels that
    [ShiftRegisterWrite] drives to a following [ShiftRegisterRead] leaves
    the complement of [V] within the width, [2^(SizeInOctets*8) - 1 - V],
    in [InputBuffer]. *)
Theorem inverted_Write_then_Read_complements
    (r : ShiftRegister) (w : World) (fuel : nat) :
  1 <= SizeInOctets r <= 4 -> InvertOutput r = true ->
  0 <= OutputBuffer r < 2 ^ (SizeInOctets r * 8) ->
  (bit_count r < fuel)%nat ->
  exists driven : list bool,
    ShiftRegisterWrite fuel (r, w) =
      Some (tt, (r, advance (drive_steps r driven ++ latch_pulse r) 0 w))
    /\ forall w2 : World,
         next_samples w2 (bit_count r) = driven ->
         exists w3 : World,
           ShiftRegisterRead fuel (r, w2) =
           Some (tt,
                 (with_InputBuffer
                    (2 ^ (SizeInOctets r * 8) - 1 - OutputBuffer r) r,
                  w3)).
Proof.
  intros HW Hinv HV Hfuel. exists (output_levels r). split.
  - rewrite <- (advance_nil w) at 1.
    now rewrite Write_cycle_run by (assumption || lia).
  - intros w2 Hfed. eexists.
    rewrite <- (advance_nil w2) at 1.
    rewrite Read_cycle_run by (assumption || lia).
    rewrite Hfed. unfold output_levels. rewrite Hinv.
    rewrite (map_ext (fun b => xorb b true) negb)
      by (intros b; now destruct b).
    rewrite <- msb_first_bits_lnot, <- msb_first_bits_mod.
    rewrite msb_first_roundtrip
      by (apply Z.mod_pos_bound, Z.pow_pos_nonneg; lia).
    rewrite bit_count_Z by lia.
    now rewrite lnot_mod_pow2.
Qed.

Lemma inverted_Write_then_Read_complements_witness :
  exists driven : list bool,
    ShiftRegisterWrite 9 (example_inverting_register, idle_world) =
      Some (tt, (example_inverting_register,
                 advance (drive_steps example_inverting_register driven
                          ++ latch_pulse example_inverting_register)
                   0 idle_world))
    /\ forall w2 : World,
         next_samples w2 8 = driven ->
         exists w3 : World,
           ShiftRegisterRead 9 (example_inverting_register, w2) =
           Some (tt, (with_InputBuffer 127 example_inverting_register, w3)).
Proof.
  assert (HW : 1 <= SizeInOctets example_inverting_register <= 4)
    by (cbn; lia).
  assert (Hinv : InvertOutput example_inverting_register = true)
    by reflexivity.
  assert (HV : 0 <= OutputBuffer example_inverting_register
               < 2 ^ (SizeInOctets example_inverting_register * 8))
    by (cbn; lia).
  assert (Hf : (bit_count example_inverting_register < 9)%nat)
    by (unfold bit_count; cbn; lia).
  exact (inverted_Write_then_Read_complements example_inverting_register
           idle_world 9 HW Hinv HV Hf).
Defined.

(** X10: how the transfers compose.  Within the width limit, a hybrid
    transfer is the write transfer's drive steps, without its latch pulse,
    followed by a complete read transfer; and a write transfer is the same
    drive steps followed by [ShiftRegisterPulseLatch]. *)
Theorem ReadWrite_is_drive_then_Read
    (r : ShiftRegister) (w : World) (fuel : nat) :
  SizeInOctets r <= 4 -> (bit_count r < fuel)%nat ->
  (exists s, ShiftRegisterReadWrite fuel (r, w) = Some (tt, s))
  /\ ShiftRegisterReadWrite fuel (r, w) =
     ShiftRegisterRead fuel
       (r, advance (drive_steps r (output_levels r)) 0 w)
  /\ ShiftRegisterWrite fuel (r, w) =
     ShiftRegisterPulseLatch
       (r, advance (drive_steps r (output_levels r)) 0 w).
Proof.
  intros HW Hfuel.
  assert (Hrw : ShiftRegisterReadWrite fuel (r, w) =
    Some (tt,
          (with_InputBuffer (msb_first_value (next_samples w (bit_count r))) r,
           advance (hybrid_cycle r (next_samples w (bit_count r)))
             (bit_count r) w))).
  { rewrite <- (advance_nil w) at 1.
    now rewrite ReadWrite_cycle_run by assumption. }
  split; [eexists; exact Hrw|]. split.
  - rewrite Hrw, Read_cycle_run by assumption. reflexivity.
  - rewrite <- (advance_nil w) at 1.
    rewrite Write_cycle_run, PulseLatch_run by assumption. reflexivity.
Qed.

Lemma ReadWrite_is_drive_then_Read_witness :
  ShiftRegisterReadWrite 9 (example_hybrid_register, idle_world) =
  ShiftRegisterRead 9
    (example_hybrid_register,
     advance (drive_steps example_hybrid_register
                [true; false; false; false; false; false; false; false])
       0 idle_world).
Proof.
  assert (HW : SizeInOctets example_hybrid_register <= 4) by (cbn; lia).
  assert (Hf : (bit_count example_hybrid_register < 9)%nat)
    by (unfold bit_count; cbn; lia).
  exact (proj1 (proj2 (ReadWrite_is_drive_then_Read example_hybrid_register
                         idle_world 9 HW Hf))).
Defined.

Lemma forallb_drive_steps (f : Event -> bool) r levels :
  (forall level, forallb f (drive_step r level) = true) ->
  forallb f (drive_steps r levels) = true.
Proof.
  intros H. induction levels as [|b levels IH]; [reflexivity|].
  unfold drive_steps in *. cbn [flat_map].
  now rewrite forallb_app, H, IH.
Qed.

Lemma forallb_sample_steps (f : Event -> bool) r levels :
  (forall level, forallb f (sample_step r level) = true) ->
  forallb f (sample_steps r levels) = true.
Proof.
  intros H. induction levels as [|b levels IH]; [reflexivity|].
  unfold sample_steps in *. cbn [flat_map].
  now rewrite forallb_app, H, IH.
Qed.

Lemma pins_sampled_app t1 t2 :
  pins_sampled (t1 ++ t2) = pins_sampled t1 ++ pins_sampled t2.
Proof.
  induction t1 as [|e t1 IH]; [reflexivity|].
  destruct e; cbn [pins_sampled app]; now rewrite ?IH.
Qed.

Lemma pins_sampled_drive_steps r levels :
  pins_sampled (drive_steps r levels) = [].
Proof.
  induction levels as [|b levels IH]; [reflexivity|].
  unfold drive_steps in *. cbn [flat_map]. now rewrite pins_sampled_app, IH.
Qed.

Lemma pins_sampled_sample_steps r levels :
  pins_sampled (sample_steps r levels) =
  repeat (DataInGPIO r) (length levels).
Proof.
  induction levels as [|b levels IH]; [reflexivity|].
  unfold sample_steps in *. cbn [flat_map length repeat].
  rewrite pins_sampled_app, IH. reflexivity.
Qed.

(** X11: what the transfers never do.  A write or a fill only writes
    levels and sleeps: it takes no sample and sets no pin up.  A read or a
    hybrid transfer never calls [gpio_init] or [gpio_set_dir] either, and
    samples data-in, and only data-in, exactly [SizeInOctets*8] times; a
    read writes no level to a data-out pin that is not also the clock or
    latch pin.  Pin set-up happens in [ShiftRegisterCreate] alone. *)
Theorem transfers_only_use_their_pins
    (r : ShiftRegister) (w : World) (fuel : nat) :
  SizeInOctets r * 8 <= 255 -> (bit_count r < fuel)%nat ->
  (exists es,
     ShiftRegisterWrite fuel (r, w) = Some (tt, (r, advance es 0 w))
     /\ forallb puts_or_sleeps es = true)
  /\ (forall FillValue, exists es,
        ShiftRegisterFill fuel FillValue (r, w) =
        Some (tt, (r, advance es 0 w))
        /\ forallb puts_or_sleeps es = true)
  /\ (exists es v,
        ShiftRegisterRead fuel (r, w) =
        Some (tt, (with_InputBuffer v r, advance es (bit_count r) w))
        /\ forallb (fun e => negb (reconfigures e)) es = true
        /\ pins_sampled es = repeat (DataInGPIO r) (bit_count r)
        /\ (DataOutGPIO r <> ClockGPIO r -> DataOutGPIO r <> LatchGPIO r ->
            levels_put (DataOutGPIO r) es = []))
  /\ (exists es v,
        ShiftRegisterReadWrite fuel (r, w) =
        Some (tt, (with_InputBuffer v r, advance es (bit_count r) w))
        /\ forallb (fun e => negb (reconfigures e)) es = true
        /\ pins_sampled es = repeat (DataInGPIO r) (bit_count r)).
Proof.
  intros Hb Hfuel. split; [|split; [|split]].
  - eexists. split.
    + rewrite <- (advance_nil w) at 1. now apply Write_run.
    + cbn [app]. rewrite forallb_app, forallb_drive_steps; reflexivity.
  - intros FillValue. eexists. split.
    + rewrite <- (advance_nil w) at 1. now apply Fill_run.
    + cbn [app]. rewrite forallb_app, forallb_drive_steps; reflexivity.
  - do 2 eexists. split; [|split; [|split]].
    + rewrite <- (advance_nil w) at 1. now apply Read_run.
    + cbn [app]. rewrite !forallb_app, forallb_sample_steps; reflexivity.
    + cbn [app]. rewrite !pins_sampled_app, pins_sampled_sample_steps.
      rewrite next_samples_length. cbn [latch_raise latch_lower pins_sampled app].
      apply app_nil_r.
    + intros Hc Hl. cbn [app]. rewrite !levels_put_app.
      rewrite levels_put_sample_steps by assumption.
      destruct (levels_put_latch_edges (DataOutGPIO r) r Hl) as [-> ->].
      reflexivity.
  - do 2 eexists. split; [|split].
    + rewrite <- (advance_nil w) at 1. now apply ReadWrite_run.
    + cbn [app].
      rewrite !forallb_app, forallb_drive_steps, forallb_sample_steps;
        reflexivity.
    + cbn [app]. rewrite !pins_sampled_app, pins_sampled_drive_steps.
      rewrite pins_sampled_sample_steps, next_samples_length.
      cbn [latch_raise latch_lower pins_sampled app]. apply app_nil_r.
Qed.

Lemma transfers_only_use_their_pins_witness :
  exists es v,
    ShiftRegisterRead 9 (example_input_register, idle_world) =
      Some (tt, (with_InputBuffer v example_input_register,
                 advance es 8 idle_world))
    /\ forallb (fun e => negb (reconfigures e)) es = true
    /\ pins_sampled es = [5; 5; 5; 5; 5; 5; 5; 5].
Proof.
  assert (Hb : SizeInOctets example_input_register * 8 <= 255)
    by (cbn; lia).
  assert (Hf : (bit_count example_input_register < 9)%nat)
    by (unfold bit_count; cbn; lia).
  destruct (transfers_only_use_their_pins example_input_register idle_world 9
              Hb Hf) as [_ [_ [[es [v [Hrun [Hno [Hpins _]]]]] _]]].
  exists es, v. repeat split; assumption.
Defined.

Lemma pins_initialised_app t1 t2 :
  pins_initialised (t1 ++ t2) = pins_initialised t1 ++ pins_initialised t2.
Proof.
  induction t1 as [|e t1 IH]; [reflexivity|].
  destruct e; cbn [pins_initialised app]; now rewrite ?IH.
Qed.

Lemma pins_initialised_drive_steps r levels :
  pins_initialised (drive_steps r levels) = [].
Proof.
  induction levels as [|b levels IH]; [reflexivity|].
  unfold drive_steps in *. cbn [flat_map].
  now rewrite pins_initialised_app, IH.
Qed.

Lemma pins_initialised_sample_steps r levels :
  pins_initialised (sample_steps r levels) = [].
Proof.
  induction levels as [|b levels IH]; [reflexivity|].
  unfold sample_steps in *. cbn [flat_map].
  now rewrite pins_initialised_app, IH.
Qed.

(** X12: a data pin given as 0 ("not wired") is skipped by the set-up of
    [ShiftRegisterCreate] but not by the transfer that follows.  Created
    in output mode with data-out 0, the register initialises the clock and
    latch pins only, and then drives the [width*8] bits of the initial
    value onto pin 0; created in input mode with data-in 0, it takes its
    [width*8] samples from pin 0. *)
Theorem unwired_data_pins_are_still_used
    (fuel : nat) (clock latch initial width : Z) (w : World) :
  1 <= width <= 4 -> (32 < fuel)%nat -> clock <> 0 -> latch <> 0 ->
  (exists r es,
     ShiftRegisterCreate fuel SHIFTREGISTER_OUTPUT clock 0 0 latch initial
       width w = Some (Some r, advance es 0 w)
     /\ pins_initialised es = [clock; latch]
     /\ levels_put 0 es = msb_first_bits (Z.to_nat (width * 8)) initial)
  /\ (exists r es,
        ShiftRegisterCreate fuel SHIFTREGISTER_INPUT clock 0 0 latch initial
          width w = Some (Some r, advance es (Z.to_nat (width * 8)) w)
        /\ pins_initialised es = [clock; latch]
        /\ pins_sampled es = repeat 0 (Z.to_nat (width * 8))).
Proof.
  intros HW Hfuel Hc Hl. split.
  - set (r0 := fresh_register SHIFTREGISTER_OUTPUT clock 0 0 latch initial
                 width).
    exists r0, (setup_events clock 0 0 latch ++ write_cycle r0).
    split; [|split].
    + rewrite Create_run by (unfold MAX_SIZEINOCTETS; lia).
      reflexivity.
    + unfold write_cycle. rewrite !pins_initialised_app.
      rewrite pins_initialised_drive_steps. reflexivity.
    + assert (Hd : levels_put 0 (drive_steps r0 (output_levels r0)) =
                   output_levels r0)
        by (apply (levels_put_drive_steps r0); unfold r0; cbn; congruence).
      assert (Hp : levels_put 0 (latch_pulse r0) = [])
        by (apply (levels_put_latch_pulse 0 r0); unfold r0; cbn; congruence).
      unfold write_cycle. rewrite !levels_put_app, Hd, Hp.
      unfold setup_events. cbn [Z.eqb app levels_put].
      destruct (Z.eqb_spec latch 0); [congruence|]. cbn [app].
      rewrite app_nil_r. unfold output_levels, r0.
      cbn [InvertOutput OutputBuffer fresh_register].
      rewrite (map_ext (fun b => xorb b false) (fun b => b))
        by (intros b; now destruct b).
      now rewrite map_id.
  - set (r0 := fresh_register SHIFTREGISTER_INPUT clock 0 0 latch initial
                 width).
    exists (with_InputBuffer
              (msb_first_value (next_samples w (bit_count r0))) r0).
    exists (setup_events clock 0 0 latch
            ++ read_cycle r0 (next_samples w (bit_count r0))).
    split; [|split].
    + rewrite Create_run by (unfold MAX_SIZEINOCTETS; lia).
      reflexivity.
    + unfold read_cycle. rewrite !pins_initialised_app.
      rewrite pins_initialised_sample_steps. reflexivity.
    + unfold read_cycle. rewrite !pins_sampled_app.
      rewrite pins_sampled_sample_steps, next_samples_length.
      unfold setup_events.
      cbn [Z.eqb app pins_sampled latch_raise latch_lower].
      now rewrite app_nil_r.
Qed.

Lemma unwired_data_pins_are_still_used_witness :
  exists r es,
    ShiftRegisterCreate 33 SHIFTREGISTER_OUTPUT 2 0 0 4 128 1 idle_world =
      Some (Some r, advance es 0 idle_world)
    /\ pins_initialised es = [2; 4]
    /\ levels_put 0 es =
       [true; false; false; false; false; false; false; false].
Proof.
  assert (HW : 1 <= 1 <= 4) by lia.
  assert (Hf : (32 < 33)%nat) by lia.
  assert (Hc : 2 <> 0) by lia.
  assert (Hl : 4 <> 0) by lia.
  exact (proj1 (unwired_data_pins_are_still_used 33 2 4 128 1 idle_world
                  HW Hf Hc Hl)).
Defined.

Lemma msb_first_value_repeat level n :
  msb_first_value (repeat level n) =
  if level then 2 ^ Z.of_nat n - 1 else 0.
Proof.
  induction n as [|n IH]; [now destruct level|].
  cbn [repeat msb_first_value]. rewrite repeat_length, IH.
  rewrite Nat2Z.inj_succ, Z.pow_succ_r by lia.
  destruct level; cbn [Z.b2z]; lia.
Qed.

Lemma next_samples_steady w n level :
  (forall i, (i < n)%nat -> samples w (i + reads w)%nat = level) ->
  next_samples w n = repeat level n.
Proof.
  intros H. unfold next_samples.
  rewrite (map_ext_in _ (fun _ => level)).
  - now rewrite map_const, length_seq.
  - intros i Hi. apply in_seq in Hi. apply H. lia.
Qed.

(** X13: a data-in line that keeps one level over a whole read.  For
    every width from 0 to 4 octets, [ShiftRegisterRead] leaves all ones,
    [2^(SizeInOctets*8) - 1], when the line stays high, and 0 when it
    stays low. *)
Theorem Read_of_a_steady_line
    (r : ShiftRegister) (w : World) (fuel : nat) (level : bool) :
  0 <= SizeInOctets r <= 4 -> (bit_count r < fuel)%nat ->
  (forall i, (i < bit_count r)%nat -> samples w (i + reads w)%nat = level) ->
  exists w' : World,
    ShiftRegisterRead fuel (r, w) =
    Some (tt,
          (with_InputBuffer
             (if level then 2 ^ (SizeInOctets r * 8) - 1 else 0) r, w')).
Proof.
  intros HW Hfuel Hline. eexists.
  rewrite <- (advance_nil w) at 1.
  rewrite Read_cycle_run by (assumption || lia).
  rewrite (next_samples_steady w (bit_count r) level Hline).
  rewrite msb_first_value_repeat, bit_count_Z by lia.
  reflexivity.
Qed.

Lemma Read_of_a_steady_line_witness :
  exists w' : World,
    ShiftRegisterRead 9
      (example_input_register, mkWorld [] (fun _ => true) 0) =
    Some (tt, (with_InputBuffer 255 example_input_register, w')).
Proof.
  assert (HW : 0 <= SizeInOctets example_input_register <= 4)
    by (cbn; lia).
  assert (Hf : (bit_count example_input_register < 9)%nat)
    by (unfold bit_count; cbn; lia).
  exact (Read_of_a_steady_line example_input_register
           (mkWorld [] (fun _ => true) 0) 9 true HW Hf
           (fun i _ => eq_refl)).
Defined.

Lemma bit_count_one_octet r : SizeInOctets r = 1 -> bit_count r = 8%nat.
Proof. intros H. unfold bit_count. now rewrite H. Qed.

(** X14: what [GC8BitPoll] returns.  On a one-octet register in input
    mode it returns a code between 0 and 255 whose bit [7-i] is the
    [i]-th sample; so when the controller shifts out the bits of a byte
    [v], most significant first, the poll returns [v].  A line that stays
    high over the eight samples gives [GC8BIT_NOKEY], one that stays low
    gives [GC8BIT_KEY_HELD]. *)
Theorem GC8BitPoll_decodes_the_byte
    (r : ShiftRegister) (w : World) (fuel : nat) :
  Type_ r = SHIFTREGISTER_INPUT -> SizeInOctets r = 1 -> (8 < fuel)%nat ->
  exists (code : Z) (s' : Machine),
    GC8BitPoll fuel (r, w) = Some (code, s')
    /\ 0 <= code <= 255
    /\ (forall i, (i < 8)%nat ->
          Z.testbit code (7 - Z.of_nat i) = samples w (i + reads w)%nat)
    /\ (forall v, 0 <= v <= 255 ->
          next_samples w 8 = msb_first_bits 8 v -> code = v)
    /\ ((forall i, (i < 8)%nat -> samples w (i + reads w)%nat = true) ->
        code = GC8BIT_NOKEY)
    /\ ((forall i, (i < 8)%nat -> samples w (i + reads w)%nat = false) ->
        code = GC8BIT_KEY_HELD).
Proof.
  intros Hmode HW Hfuel.
  pose proof (bit_count_one_octet r HW) as Hn.
  pose proof (msb_first_value_bound (next_samples w 8)) as Hbound.
  rewrite next_samples_length in Hbound.
  change (2 ^ Z.of_nat 8) with 256 in Hbound.
  exists (msb_first_value (next_samples w 8)).
  exists (with_InputBuffer (msb_first_value (next_samples w 8)) r,
          advance (read_cycle r (next_samples w 8)) 8 w).
  split; [|split; [|split; [|split; [|split]]]].
  - unfold GC8BitPoll. unfold bind at 1.
    rewrite <- (advance_nil w) at 1.
    rewrite Update_run by (rewrite ?HW, ?Hn; unfold MAX_SIZEINOCTETS; lia).
    unfold transfer_cycle. rewrite Hmode, Hn.
    cbn [Z.eqb SHIFTREGISTER_INPUT].
    unfold bind, field, ret. cbn [fst snd app].
    rewrite InputBuffer_with. unfold uint8.
    change (2 ^ 8) with 256. rewrite Z.mod_small by lia. reflexivity.
  - lia.
  - intros i Hi.
    pose proof (msb_first_value_testbit (next_samples w 8) i) as Hbit.
    rewrite next_samples_length in Hbit. specialize (Hbit Hi).
    change (Z.of_nat 8 - 1 - Z.of_nat i) with (7 - Z.of_nat i) in Hbit.
    rewrite Hbit. unfold next_samples.
    rewrite (nth_indep _ false (samples w (0 + reads w)%nat))
      by (now rewrite length_map, length_seq).
    rewrite (map_nth (fun i => samples w (i + reads w)%nat)).
    now rewrite seq_nth.
  - intros v Hv Hfed. rewrite Hfed.
    apply msb_first_roundtrip. change (2 ^ Z.of_nat 8) with 256. lia.
  - intros Hhigh. rewrite (next_samples_steady w 8 true Hhigh). reflexivity.
  - intros Hlow. rewrite (next_samples_steady w 8 false Hlow). reflexivity.
Qed.

Lemma GC8BitPoll_decodes_the_byte_witness :
  exists (code : Z) (s' : Machine),
    GC8BitPoll 9
      (example_input_register,
       world_feeding [true; true; true; true; false; false; false; false]) =
    Some (code, s')
    /\ code = 240.
Proof.
  assert (Hm : Type_ example_input_register = SHIFTREGISTER_INPUT)
    by reflexivity.
  assert (HW : SizeInOctets example_input_register = 1) by reflexivity.
  assert (Hf : (8 < 9)%nat) by lia.
  destruct (GC8BitPoll_decodes_the_byte example_input_register
              (world_feeding
                 [true; true; true; true; false; false; false; false])
              9 Hm HW Hf)
    as [code [s' [Hrun [_ [_ [Hdec _]]]]]].
  exists code, s'. split; [exact Hrun|].
  apply Hdec; [lia | reflexivity].
Defined.

Lemma slept_setup_events clock data_in data_out latch :
  slept (setup_events clock data_in data_out latch) = 0.
Proof.
  unfold setup_events.
  destruct (data_in =? 0), (data_out =? 0); reflexivity.
Qed.

(** X15: the delays of the game-controller layer.  [GC8BitInit] lowers
    the two delays to 1 microsecond only after [ShiftRegisterCreate] has
    run its read cycle, so that first cycle still runs with the defaults:
    initialisation sleeps 16 times 5 = 80 microseconds, and every later
    [GC8BitPoll] sleeps 16 microseconds. *)
Theorem GC8Bit_sleep_time
    (fuel : nat) (clock data_in latch : Z) (w : World) :
  (8 < fuel)%nat ->
  exists (r : ShiftRegister) (es : list Event),
    GC8BitInit fuel clock data_in latch w = Some (r, advance es 8 w)
    /\ slept es = 80
    /\ forall w1 : World,
         exists (code : Z) (r1 : ShiftRegister) (es1 : list Event),
           GC8BitPoll fuel (r, w1) = Some (code, (r1, advance es1 8 w1))
           /\ slept es1 = 16.
Proof.
  intros Hfuel.
  set (r0 := fresh_register SHIFTREGISTER_INPUT clock data_in 0 latch 0 1).
  set (r := with_delays GC8BIT_DELAY GC8BIT_DELAY
              (with_InputBuffer (msb_first_value (next_samples w 8)) r0)).
  exists r, (setup_events clock data_in 0 latch
             ++ read_cycle r0 (next_samples w 8)).
  split; [|split].
  - unfold GC8BitInit.
    rewrite Create_run; [| unfold MAX_SIZEINOCTETS; lia | cbn; lia].
    reflexivity.
  - rewrite slept_app, slept_setup_events. unfold read_cycle.
    rewrite !slept_app, slept_sample_steps, next_samples_length.
    reflexivity.
  - intros w1.
    exists (uint8 (msb_first_value (next_samples w1 8))).
    exists (with_InputBuffer (msb_first_value (next_samples w1 8)) r).
    exists (read_cycle r (next_samples w1 8)).
    split.
    + unfold GC8BitPoll. unfold bind at 1.
      rewrite <- (advance_nil w1) at 1.
      rewrite Update_run; [| cbn; unfold MAX_SIZEINOCTETS; lia | exact Hfuel].
      reflexivity.
    + unfold read_cycle.
      rewrite !slept_app, slept_sample_steps, next_samples_length.
      reflexivity.
Qed.

Lemma GC8Bit_sleep_time_witness :
  exists (r : ShiftRegister) (es : list Event),
    GC8BitInit 9 2 5 4 idle_world = Some (r, advance es 8 idle_world)
    /\ slept es = 80.
Proof.
  assert (Hf : (8 < 9)%nat) by lia.
  destruct (GC8Bit_sleep_time 9 2 5 4 idle_world Hf)
    as [r [es [Hinit [Hslept _]]]].
  exists r, es. split; assumption.
Defined.

Lemma advance_twice es' k' es k w :
  advance es' k' (advance es k w) = advance (es ++ es') (k' + k) w.
Proof.
  unfold advance. cbn [trace samples reads].
  rewrite app_assoc. f_equal. lia.
Qed.

Lemma with_InputBuffer_same r : with_InputBuffer (InputBuffer r) r = r.
Proof. now destruct r. Qed.

Lemma run_transfer_returns fuel t r x w :
  SizeInOctets r <= MAX_SIZEINOCTETS -> (32 < fuel)%nat ->
  exists y es k,
    run_transfer fuel t (with_InputBuffer x r, w) =
    Some (tt, (with_InputBuffer y r, advance es k w)).
Proof.
  intros HW Hfuel.
  pose proof (bit_count_within_width r HW) as Hn.
  assert (Hb : SizeInOctets (with_InputBuffer x r) * 8 <= 255)
    by (cbn [SizeInOctets with_InputBuffer]; unfold MAX_SIZEINOCTETS in HW; lia).
  assert (Hf : (bit_count (with_InputBuffer x r) < fuel)%nat)
    by (change (bit_count (with_InputBuffer x r)) with (bit_count r); lia).
  assert (Hwrite : exists y es k,
    ShiftRegisterWrite fuel (with_InputBuffer x r, w) =
    Some (tt, (with_InputBuffer y r, advance es k w))).
  { exists x. do 2 eexists. rewrite <- (advance_nil w) at 1.
    now apply Write_run. }
  assert (Hread : exists y es k,
    ShiftRegisterRead fuel (with_InputBuffer x r, w) =
    Some (tt, (with_InputBuffer y r, advance es k w))).
  { do 3 eexists. rewrite <- (advance_nil w) at 1.
    rewrite Read_run by assumption. reflexivity. }
  assert (Hhybrid : exists y es k,
    ShiftRegisterReadWrite fuel (with_InputBuffer x r, w) =
    Some (tt, (with_InputBuffer y r, advance es k w))).
  { do 3 eexists. rewrite <- (advance_nil w) at 1.
    rewrite ReadWrite_run by assumption. reflexivity. }
  destruct t as [| | |FillValue|]; cbn [run_transfer];
    try assumption.
  - exists x. do 2 eexists. rewrite <- (advance_nil w) at 1.
    now apply Fill_run.
  - unfold ShiftRegisterUpdate, bind at 1, field at 1. cbn [fst snd].
    destruct (_ =? SHIFTREGISTER_INPUT); [assumption|].
    destruct (_ =? SHIFTREGISTER_OUTPUT); [assumption|].
    destruct (_ =? SHIFTREGISTER_HYBRID); [assumption|].
    exists x, [], 0%nat. unfold ret. now rewrite advance_nil.
Qed.

(** X16: a register within the width limit stays usable for ever.  Any
    sequence of calls of [ShiftRegisterWrite], [ShiftRegisterRead],
    [ShiftRegisterReadWrite], [ShiftRegisterFill] and
    [ShiftRegisterUpdate] on it returns; afterwards every field but
    [InputBuffer] is as before (mode, pins, width, delays, [OutputBuffer],
    [InvertOutput]), and the calls made earlier stay a prefix of the
    trace.  This holds in particular for every register
    [ShiftRegisterCreate] returns. *)
Theorem any_sequence_of_transfers_returns
    (fuel : nat) (ts : list Transfer) :
  (32 < fuel)%nat ->
  (forall (r : ShiftRegister) (w : World),
     SizeInOctets r <= MAX_SIZEINOCTETS ->
     exists v es k,
       run_transfers fuel ts (r, w) =
       Some (tt, (with_InputBuffer v r, advance es k w)))
  /\ (forall mode clock data_in data_out latch initial width w0,
        width <= MAX_SIZEINOCTETS ->
        exists r0 w1,
          ShiftRegisterCreate fuel mode clock data_in data_out latch initial
            width w0 = Some (Some r0, w1)
          /\ exists v es k,
               run_transfers fuel ts (r0, w1) =
               Some (tt, (with_InputBuffer v r0, advance es k w1))).
Proof.
  intros Hfuel.
  assert (Hseq : forall ts r x w,
    SizeInOctets r <= MAX_SIZEINOCTETS ->
    exists v es k,
      run_transfers fuel ts (with_InputBuffer x r, w) =
      Some (tt, (with_InputBuffer v r, advance es k w))).
  { clear ts. intros ts. induction ts as [|t ts IH]; intros r x w HW.
    - exists x, [], 0%nat. cbn [run_transfers]. unfold ret.
      now rewrite advance_nil.
    - cbn [run_transfers]. unfold bind.
      destruct (run_transfer_returns fuel t r x w HW Hfuel)
        as [y [es [k Hstep]]].
      rewrite Hstep.
      destruct (IH r y (advance es k w) HW) as [v [es' [k' Hrest]]].
      rewrite Hrest, advance_twice. now do 3 eexists. }
  split.
  - intros r w HW.
    destruct (Hseq ts r (InputBuffer r) w HW) as [v [es [k Hrun]]].
    rewrite with_InputBuffer_same in Hrun. now exists v, es, k.
  - intros mode clock data_in data_out latch initial width w0 HW.
    rewrite Create_run; [| exact HW | unfold MAX_SIZEINOCTETS in HW; lia].
    set (r0 := fresh_register mode clock data_in data_out latch initial
                 width).
    assert (H0 : SizeInOctets r0 <= MAX_SIZEINOCTETS) by exact HW.
    unfold transfer_cycle.
    destruct (_ =? SHIFTREGISTER_INPUT);
      [do 2 eexists; split; [reflexivity | exact (Hseq ts r0 _ _ H0)]|].
    destruct (_ =? SHIFTREGISTER_OUTPUT);
      [do 2 eexists; split; [reflexivity | exact (Hseq ts r0 0 _ H0)]|].
    destruct (_ =? SHIFTREGISTER_HYBRID);
      [do 2 eexists; split; [reflexivity | exact (Hseq ts r0 _ _ H0)]|].
    do 2 eexists; split; [reflexivity | exact (Hseq ts r0 0 _ H0)].
Qed.

Lemma any_sequence_of_transfers_returns_witness :
  exists v es k,
    run_transfers 33
      [CallFill 1; CallWrite; CallReadWrite; CallUpdate; CallRead]
      (example_hybrid_register, idle_world) =
    Some (tt, (with_InputBuffer v example_hybrid_register,
               advance es k idle_world)).
Proof.
  assert (HW : SizeInOctets example_hybrid_register <= MAX_SIZEINOCTETS)
    by (cbn; unfold MAX_SIZEINOCTETS; lia).
  assert (Hf : (32 < 33)%nat) by lia.
  exact (proj1 (any_sequence_of_transfers_returns 33
                  [CallFill 1; CallWrite; CallReadWrite; CallUpdate; CallRead]
                  Hf) example_hybrid_register idle_world HW).
Defined.

Lemma shift_in_mod acc level :
  shift_in (acc mod 2 ^ 32) level = (2 * acc + Z.b2z level) mod 2 ^ 32.
Proof.
  unfold shift_in, uint32. rewrite Z.shiftl_mul_pow2 by lia.
  change (2 ^ 1) with 2.
  replace (if level then 1 else 0) with (Z.b2z level) by now destruct level.
  rewrite Z.add_mod_idemp_l by lia.
  rewrite <- Z.add_mod_idemp_l by lia.
  rewrite Z.mul_mod_idemp_l by lia.
  rewrite Z.add_mod_idemp_l by lia.
  f_equal. lia.
Qed.

Lemma fold_shift_in_mod bs : forall acc,
  fold_left shift_in bs (acc mod 2 ^ 32) =
  (acc * 2 ^ Z.of_nat (length bs) + msb_first_value bs) mod 2 ^ 32.
Proof.
  induction bs as [|b bs IH]; intros acc.
  - cbn [fold_left length msb_first_value]. f_equal. simpl. lia.
  - cbn [fold_left length msb_first_value].
    rewrite shift_in_mod, IH.
    rewrite Nat2Z.inj_succ, Z.pow_succ_r by lia.
    f_equal. lia.
Qed.

Lemma msb_first_value_app l1 l2 :
  msb_first_value (l1 ++ l2) =
  msb_first_value l1 * 2 ^ Z.of_nat (length l2) + msb_first_value l2.
Proof.
  induction l1 as [|b l1 IH]; [simpl; lia|].
  cbn [app msb_first_value]. rewrite IH, length_app, Nat2Z.inj_add.
  rewrite Z.pow_add_r by lia. lia.
Qed.

(** X17: a read wider than the 32-bit buffer.  For every width whose loop
    terminates (up to 31 octets; [ShiftRegisterCreate] stops at 4, but the
    field is assignable), [ShiftRegisterRead] leaves the value of the
    samples modulo [2^32]: once more than 32 bits have been shifted in,
    the earliest ones have left the buffer and [InputBuffer] holds the
    last 32 samples only. *)
Theorem Read_keeps_the_last_32_samples
    (r : ShiftRegister) (w : World) (fuel : nat) :
  SizeInOctets r * 8 <= 255 -> (bit_count r < fuel)%nat ->
  exists (v : Z) (w' : World),
    ShiftRegisterRead fuel (r, w) = Some (tt, (with_InputBuffer v r, w'))
    /\ v = msb_first_value (next_samples w (bit_count r)) mod 2 ^ 32
    /\ ((32 <= bit_count r)%nat ->
        v = msb_first_value
              (skipn (bit_count r - 32) (next_samples w (bit_count r)))).
Proof.
  intros Hb Hfuel. do 2 eexists. split; [|split].
  - rewrite <- (advance_nil w) at 1. now apply Read_run.
  - change 0 with (0 mod 2 ^ 32) at 1.
    rewrite fold_shift_in_mod. f_equal.
  - intros Hwide.
    change 0 with (0 mod 2 ^ 32) at 1.
    rewrite fold_shift_in_mod, Z.mul_0_l, Z.add_0_l.
    set (bs := next_samples w (bit_count r)).
    rewrite <- (firstn_skipn (bit_count r - 32) bs) at 1.
    rewrite msb_first_value_app.
    assert (Hlen : length (skipn (bit_count r - 32) bs) = 32%nat).
    { rewrite length_skipn. unfold bs. rewrite next_samples_length. lia. }
    pose proof (msb_first_value_bound (skipn (bit_count r - 32) bs)) as Hv.
    rewrite Hlen in *. change (2 ^ Z.of_nat 32) with (2 ^ 32) in *.
    rewrite Z.add_comm, Z.mod_add by lia.
    apply Z.mod_small. exact Hv.
Qed.

Lemma Read_keeps_the_last_32_samples_witness :
  exists (v : Z) (w' : World),
    ShiftRegisterRead 41
      (mkShiftRegister SHIFTREGISTER_INPUT 2 5 0 4 5 1 1 0 0 false,
       world_feeding [true; true; true; true; true; true; true; true]) =
    Some (tt,
          (with_InputBuffer v
             (mkShiftRegister SHIFTREGISTER_INPUT 2 5 0 4 5 1 1 0 0 false),
           w'))
    /\ v = 0.
Proof.
  assert (Hb : SizeInOctets
                 (mkShiftRegister SHIFTREGISTER_INPUT 2 5 0 4 5 1 1 0 0 false)
               * 8 <= 255) by (cbn; lia).
  assert (Hf : (bit_count
                  (mkShiftRegister SHIFTREGISTER_INPUT 2 5 0 4 5 1 1 0 0 false)
                < 41)%nat) by (unfold bit_count; cbn; lia).
  destruct (Read_keeps_the_last_32_samples _
              (world_feeding [true; true; true; true; true; true; true; true])
              41 Hb Hf) as [v [w' [Hrun [_ Hlast]]]].
  exists v, w'. split; [exact Hrun|].
  rewrite Hlast; [reflexivity | unfold bit_count; cbn; lia].
Defined.
